(** * cobalt: the YouTube service (api/src/processing/services/youtube.js)

    A shallow embedding of the service module: the session manager
    ([cloneInnertube], [transformSessionData]), the playability gate, the
    stream selector and the metadata extractor of the default export,
    followed by the properties of the specification that they decide. *)

From Stdlib Require Import ZArith QArith List String Ascii Bool Lia Sorting.Permutation Sorting.Sorted.
From stdpp Require Import base option gmap strings fin_maps pretty.
Import ListNotations.

Local Open Scope Z_scope.
Local Open Scope string_scope.
Local Open Scope list_scope.

(** ** The JavaScript string methods the module calls

    A string is a sequence of code units; a [string] of this development
    holds the code units below 256, one per character. *)

Module JS.

Fixpoint startsWith (s p : string) : bool :=
  match p, s with
  | EmptyString, _ => true
  | String a p', String b s' => Ascii.eqb a b && startsWith s' p'
  | String _ _, EmptyString => false
  end.

(** [s.includes(p)]: [p] occurs in [s] at some position. *)
Fixpoint includes (s p : string) : bool :=
  startsWith s p ||
  match s with
  | EmptyString => false
  | String _ s' => includes s' p
  end.

(** [s.endsWith(p)]: [p] occurs in [s] at position [length s - length p]. *)
Fixpoint endsWith (s p : string) : bool :=
  String.eqb s p ||
  match s with
  | EmptyString => false
  | String _ s' => endsWith s' p
  end.

(** The scan of [s.split(sep)] for a separator that is not empty: [cur] is
    the piece being read, [skip] the number of code units of a matched
    separator still to pass over. Matches are taken from left to right and
    do not overlap. *)
Fixpoint split_go (sep s : string) (skip : nat) (cur : string) : list string :=
  match s with
  | EmptyString => [cur]
  | String c s' =>
      match skip with
      | S k => split_go sep s' k cur
      | O =>
          if startsWith s sep
          then cur :: split_go sep s' (Nat.pred (String.length sep)) EmptyString
          else split_go sep s' O (cur +:+ String c EmptyString)
      end
  end.

(** [s.split(sep, limit)]: the pieces beyond the first [limit] are dropped. *)
Definition split (s sep : string) (limit : nat) : list string :=
  firstn limit (split_go sep s O EmptyString).

Fixpoint drop (n : nat) (s : string) : string :=
  match n, s with
  | S k, String _ s' => drop k s'
  | _, _ => s
  end.

(** [s.replace(pat, '')] for a string pattern: the first occurrence of
    [pat], when there is one, is removed. *)
Fixpoint remove_first (s pat : string) : string :=
  if startsWith s pat then drop (String.length pat) s
  else
    match s with
    | EmptyString => EmptyString
    | String c s' => String c (remove_first s' pat)
    end.

(** White space and line terminators below 256: TAB, LF, VT, FF, CR, SP and
    the no-break space. *)
Definition is_space (c : ascii) : bool :=
  let n := nat_of_ascii c in
  ((9 <=? n)%nat && (n <=? 13)%nat) || (n =? 32)%nat || (n =? 160)%nat.

Fixpoint trimStart (s : string) : string :=
  match s with
  | EmptyString => EmptyString
  | String c s' => if is_space c then trimStart s' else s
  end.

Fixpoint trimEnd (s : string) : string :=
  match s with
  | EmptyString => EmptyString
  | String c s' =>
      match trimEnd s' with
      | EmptyString => if is_space c then EmptyString else String c EmptyString
      | t => String c t
      end
  end.

Definition trim (s : string) : string := trimEnd (trimStart s).

(** Truthiness of a value that is a string or [undefined]. *)
Definition truthy_string (v : option string) : bool :=
  match v with
  | Some (String _ _) => true
  | _ => false
  end.

End JS.

Definition LF : string := String (ascii_of_nat 10) EmptyString.

(** ** Values, numbers and completions *)

Inductive jsval :=
| VUndefined
| VNull
| VBool (b : bool)
| VNum (z : Z)
| VStr (s : string).

(** A Number value: NaN, the two infinities, or a finite value. *)
Inductive jsnum :=
| NaN
| NegInf
| Fin (q : Q)
| PosInf.

(** [a > b] on Number values; every comparison with NaN is false. *)
Definition num_gt (a b : jsnum) : bool :=
  match a, b with
  | NaN, _ | _, NaN => false
  | NegInf, _ => false
  | _, PosInf => false
  | Fin x, Fin y => negb (Qle_bool x y)
  | Fin _, NegInf => true
  | PosInf, _ => true
  end.

(** A thrown value, as far as the module looks into it: [e.message] and
    [e.info.reason]. *)
Record Exn := {
  exn_name : string;
  message : option string;
  info_reason : option string
}.

Definition TypeError (msg : string) : Exn :=
  {| exn_name := "TypeError"; message := Some msg; info_reason := None |}.

Definition RangeError (msg : string) : Exn :=
  {| exn_name := "RangeError"; message := Some msg; info_reason := None |}.

Inductive Completion (A : Type) :=
| Return (a : A)
| Throw (e : Exn).
Arguments Return {A} a.
Arguments Throw {A} e.

(** ** The data the service reads *)

Inductive Codec := h264 | av1 | vp9.

Record CodecInfo := {
  videoCodec : string;
  audioCodec : string;
  container : string
}.

Definition codecList (format : Codec) : CodecInfo :=
  match format with
  | h264 => {| videoCodec := "avc1"; audioCodec := "mp4a"; container := "mp4" |}
  | av1 => {| videoCodec := "av01"; audioCodec := "opus"; container := "webm" |}
  | vp9 => {| videoCodec := "vp9"; audioCodec := "opus"; container := "webm" |}
  end.

Definition codec_name (format : Codec) : string :=
  match format with
  | h264 => "h264"
  | av1 => "av1"
  | vp9 => "vp9"
  end.

Record AudioTrack := { audio_is_default : bool }.

(** One entry of [info.streaming_data.adaptive_formats]. The fields the
    source reads without a guard are there: [mime_type] is a string (line
    190 calls [includes] on it), as youtubei.js gives it. *)
Record Format := {
  mime_type : string;
  bitrate : Z;
  has_video : bool;
  has_audio : bool;
  content_length : option Z;
  quality_label : option string;
  width : Z;
  height : Z;
  language : option string;
  is_original : bool;
  audio_track : option AudioTrack;
  url : string
}.

Record Text := { text : option string }.

Record ErrorScreen := {
  es_reason : option Text;
  subreason : option Text
}.

Record Playability := {
  status : string;
  reason : option string;
  error_screen : option ErrorScreen
}.

(** [info.basic_info], with [title] and [author] the strings that lines
    230-231 call [trim] and [replace] on. *)
Record BasicInfo := {
  info_id : option string;
  title : string;
  author : string;
  duration : option Z;
  is_live : bool;
  short_description : option string
}.

(** The info that [getBasicInfo] gives. [adaptive_formats] is
    [info.streaming_data.adaptive_formats], which line 196 reads without a
    guard: an info without [streaming_data] is outside this type, and what
    is proved of the selection is proved of infos that have it. *)
Record VideoInfo := {
  playability_status : Playability;
  basic_info : BasicInfo;
  adaptive_formats : list Format
}.

(** [o.format]: absent, the empty string, or one of the keys of [codecList]. *)
Inductive FormatField :=
| FormatAbsent
| FormatEmpty
| FormatKey (format : Codec).

(** The request [o], as far as the module reads it. *)
Record Request := {
  o_id : string;
  format : FormatField;
  quality : string;
  dubLang : option string;
  isAudioOnly : bool;
  startTime : jsval;
  endTime : jsval;
  watermark : jsval
}.

(** ** What the service returns *)

Record FileMetadata := {
  fm_title : string;
  artist : string;
  album : option string;
  copyright : option string;
  date : option string
}.

(** [youtubeDubName] is a string or [false] ([None]). *)
Record FilenameAttributes := {
  service : string;
  fa_id : string;
  fa_title : string;
  fa_author : string;
  youtubeDubName : option string;
  qualityLabel : option string;
  resolution : option string;
  extension : option string;
  youtubeFormat : option string
}.

Inductive Response :=
| RError (error : string) (critical : bool)
| RAudio (urls : string) (start_time end_time : jsval)
         (filenameAttributes : FilenameAttributes) (fileMetadata : FileMetadata)
         (bestAudio : string)
| RMerge (urls : string * string) (start_time end_time wm : jsval)
         (filenameAttributes : FilenameAttributes) (fileMetadata : FileMetadata).

Definition error_ (kind : string) : Response := RError kind false.

(** ** The default export, from the fetched info on *)

Section Service.

(** [StringToNumber] is the conversion [Number] applies to a string,
    [cleanString] the sanitizer of misc/utils.js and [durationLimit] the
    value of [env.durationLimit]. *)
Variable StringToNumber : string -> jsnum.
Variable cleanString : string -> string.
Variable durationLimit : Z.

(** [Number(v)] for [v] a string or [undefined]. *)
Definition Number (v : option string) : jsnum :=
  match v with
  | None => NaN
  | Some s => StringToNumber s
  end.

(** [v === s] for [v] a string or [undefined]. *)
Definition str_is (v : option string) (s : string) : bool :=
  match v with
  | Some x => String.eqb x s
  | None => false
  end.

(** [a === b] for two values that are strings or [undefined]. *)
Definition strict_eq (a b : option string) : bool :=
  match a, b with
  | Some x, Some y => String.eqb x y
  | None, None => true
  | _, _ => false
  end.

(** [playability?.error_screen?.reason?.text] *)
Definition error_reason_text (playability : Playability) : option string :=
  match error_screen playability with
  | Some es => match es_reason es with Some t => text t | None => None end
  | None => None
  end.

(** [playability?.error_screen?.subreason?.text] *)
Definition error_subreason_text (playability : Playability) : option string :=
  match error_screen playability with
  | Some es => match subreason es with Some t => text t | None => None end
  | None => None
  end.

(** The [switch] on [playability.status]: [Some r] when a case returns [r],
    [None] when control leaves the switch. In the LOGIN_REQUIRED case
    [playability.reason.endsWith] is called on the reason as it is. *)
Definition playability_switch (playability : Playability) : Completion (option Response) :=
  if String.eqb (status playability) "LOGIN_REQUIRED" then
    match reason playability with
    | None =>
        Throw (TypeError "Cannot read properties of undefined (reading 'endsWith')")
    | Some r =>
        if JS.endsWith r "bot" then Return (Some (error_ "youtube.login"))
        else if JS.endsWith r "age" then Return (Some (error_ "content.video.age"))
        else if str_is (error_reason_text playability) "Private video"
        then Return (Some (error_ "content.video.private"))
        else Return None
    end
  else if String.eqb (status playability) "UNPLAYABLE" then
    if match reason playability with
       | Some r => JS.endsWith r "request limit."
       | None => false
       end
    then Return (Some (error_ "fetch.rate"))
    else if match error_subreason_text playability with
            | Some t => JS.endsWith t "in your country"
            | None => false
            end
    then Return (Some (error_ "content.video.region"))
    else if str_is (error_reason_text playability) "Private video"
    then Return (Some (error_ "content.video.private"))
    else Return None
  else if String.eqb (status playability) "AGE_VERIFICATION_REQUIRED" then
    Return (Some (error_ "content.video.age"))
  else Return None.

(** [o.format || "h264"] *)
Definition requested_format (o : Request) : Codec :=
  match format o with
  | FormatKey f => f
  | FormatAbsent | FormatEmpty => h264
  end.

(** [Array.prototype.sort] with the comparator
    [(a, b) => Number(b.bitrate) - Number(a.bitrate)]: the stable sort by
    descending bitrate. *)
Fixpoint insert_by_bitrate (x : Format) (l : list Format) : list Format :=
  match l with
  | [] => [x]
  | y :: l' =>
      if (bitrate y <=? bitrate x)%Z then x :: l else y :: insert_by_bitrate x l'
  end.

Definition sort_by_bitrate (l : list Format) : list Format :=
  fold_right insert_by_bitrate [] l.

Definition matches_codec (format : Codec) (e : Format) : bool :=
  JS.includes (mime_type e) (videoCodec (codecList format))
  || JS.includes (mime_type e) (audioCodec (codecList format)).

Definition filterByCodec (format : Codec) (formats : list Format) : list Format :=
  sort_by_bitrate (List.filter (matches_codec format) formats).

(** [["vp9", "av1"].includes(format)] *)
Definition is_vp9_or_av1 (format : Codec) : bool :=
  match format with
  | vp9 | av1 => true
  | h264 => false
  end.

(** The values of [format] and [adaptive_formats] after the retry of
    lines 196-201. *)
Definition resolve_formats (format : Codec) (formats : list Format) : Codec * list Format :=
  let adaptive_formats := filterByCodec format formats in
  if (Nat.eqb (List.length adaptive_formats) 0) && is_vp9_or_av1 format
  then (h264, filterByCodec h264 formats)
  else (format, adaptive_formats).

(** Truthiness of [i.content_length]. *)
Definition truthy_num (v : option Z) : bool :=
  match v with
  | Some n => negb (n =? 0)%Z
  | None => false
  end.

Definition bestVideo (adaptive_formats : list Format) : option Format :=
  List.find (fun i => has_video i && truthy_num (content_length i)) adaptive_formats.

Definition hasAudio (adaptive_formats : list Format) : option Format :=
  List.find (fun i => has_audio i && truthy_num (content_length i)) adaptive_formats.

Definition checkBestAudio (i : Format) : bool := has_audio i && negb (has_video i).

(** [dubbedAudio] of line 216, for a [dubLang] that is truthy. *)
Definition dubbedAudio (lang : string) (adaptive_formats : list Format) : option Format :=
  List.find (fun i => checkBestAudio i && str_is (language i) lang
                      && match audio_track i with Some _ => true | None => false end)
            adaptive_formats.

(** [dubbedAudio?.audio_track?.audio_is_default] *)
Definition track_is_default (i : Format) : bool :=
  match audio_track i with
  | Some t => audio_is_default t
  | None => false
  end.

(** Lines 212-228: the values of [audio] and [isDubbed]. *)
Definition select_audio (dub : option string) (adaptive_formats : list Format)
  : option Format * bool :=
  let audio := List.find (fun i => checkBestAudio i && is_original i) adaptive_formats in
  let '(audio, isDubbed) :=
    match dub with
    | Some (String _ _ as lang) =>
        match dubbedAudio lang adaptive_formats with
        | Some d => if negb (track_is_default d) then (Some d, true) else (audio, false)
        | None => (audio, false)
        end
    | _ => (audio, false)
    end in
  match audio with
  | Some a => (Some a, isDubbed)
  | None => (List.find checkBestAudio adaptive_formats, isDubbed)
  end.

(** Lines 230-245. *)
Definition file_metadata (basicInfo : BasicInfo) : FileMetadata :=
  let fileMetadata :=
    {| fm_title := cleanString (JS.trim (title basicInfo));
       artist := cleanString (JS.trim (JS.remove_first (author basicInfo) "- Topic"));
       album := None; copyright := None; date := None |} in
  match short_description basicInfo with
  | Some desc =>
      if JS.startsWith desc "Provided to YouTube by" then
        let descItems := JS.split desc (LF +:+ LF) 5 in
        if Nat.eqb (List.length descItems) 5 then
          {| fm_title := fm_title fileMetadata;
             artist := artist fileMetadata;
             album := Some (nth 2 descItems EmptyString);
             copyright := Some (nth 3 descItems EmptyString);
             date :=
               if JS.startsWith (nth 4 descItems EmptyString) "Released on:"
               then Some (JS.trim (JS.remove_first (nth 4 descItems EmptyString) "Released on: "))
               else None |}
        else fileMetadata
      else fileMetadata
  | None => fileMetadata
  end.

(** Lines 247-253. *)
Definition filename_attributes (o : Request) (fileMetadata : FileMetadata) (isDubbed : bool)
  : FilenameAttributes :=
  {| service := "youtube";
     fa_id := o_id o;
     fa_title := fm_title fileMetadata;
     fa_author := artist fileMetadata;
     youtubeDubName := if isDubbed then dubLang o else None;
     qualityLabel := None; resolution := None; extension := None; youtubeFormat := None |}.

(** Lines 266-272; [None] is [undefined]. *)
Definition qual (i : Format) : option string :=
  match quality_label i with
  | Some (String _ _ as label) =>
      Some (hd EmptyString (JS.split (hd EmptyString (JS.split label "p" 2)) "s" 2))
  | _ => None
  end.

(** Line 274. *)
Definition requested_quality (o : Request) : string :=
  if String.eqb (quality o) "max" then "9000" else quality o.

(** Line 276. *)
Definition matchingQuality (quality : string) (bestQuality : option string) : option string :=
  if num_gt (Number (Some quality)) (Number bestQuality) then bestQuality else Some quality.

(** Lines 278-280. *)
Definition select_video (matching : option string) (adaptive_formats : list Format)
  : option Format :=
  List.find (fun i => strict_eq (qual i) matching && has_video i && negb (has_audio i))
            adaptive_formats.

(** The value of [video] for the request [o], given [bestVideo]. *)
Definition merge_video (o : Request) (bv : Format) (adaptive_formats : list Format)
  : option Format :=
  select_video (matchingQuality (requested_quality o) (qual bv)) adaptive_formats.

(** The template literal of line 284. *)
Definition resolution_of (video : Format) : string :=
  pretty (width video) +:+ "x" +:+ pretty (height video).

(** Lines 186-302: the selection, once the gate has let the info pass. *)
Definition select_streams (o : Request) (info : VideoInfo) : Completion Response :=
  let '(format, adaptive_formats) :=
    resolve_formats (requested_format o) (adaptive_formats info) in
  let best := bestVideo adaptive_formats in
  let has := hasAudio adaptive_formats in
  if (negb (bool_decide (is_Some best)) && negb (isAudioOnly o))
     || (negb (bool_decide (is_Some has)) && isAudioOnly o)
  then Return (error_ "fetch.empty")
  else
    let '(audio, isDubbed) := select_audio (dubLang o) adaptive_formats in
    let fileMetadata := file_metadata (basic_info info) in
    let filenameAttributes := filename_attributes o fileMetadata isDubbed in
    match audio, isAudioOnly o with
    | Some a, true =>
        Return (RAudio (url a) (startTime o) (endTime o) filenameAttributes fileMetadata
                       (match format with h264 => "m4a" | _ => "opus" end))
    | _, _ =>
        match best with
        | None =>
            Throw (TypeError "Cannot read properties of undefined (reading 'quality_label')")
        | Some bv =>
            match merge_video o bv adaptive_formats, audio with
            | Some video, Some a =>
                Return (RMerge (url video, url a) (startTime o) (endTime o) (watermark o)
                  {| service := service filenameAttributes;
                     fa_id := fa_id filenameAttributes;
                     fa_title := fa_title filenameAttributes;
                     fa_author := fa_author filenameAttributes;
                     youtubeDubName := youtubeDubName filenameAttributes;
                     qualityLabel := quality_label video;
                     resolution := Some (resolution_of video);
                     extension := Some (container (codecList format));
                     youtubeFormat := Some (codec_name format) |}
                  fileMetadata)
            | _, _ => Return (error_ "fetch.fail")
            end
        end
    end.

(** [a > b] for [a] a number or [undefined] and [b] a number. *)
Definition exceeds (a : option Z) (b : Z) : bool :=
  match a with
  | Some x => (b <? x)%Z
  | None => false
  end.

(** [a !== b] for [a] a string or [undefined] and [b] a string. *)
Definition strict_ne (a : option string) (b : string) : bool := negb (str_is a b).

(** Lines 133-302: the default export from the fetched [info] on. *)
Definition process (o : Request) (info : VideoInfo) : Completion Response :=
  let playability := playability_status info in
  let basicInfo := basic_info info in
  match playability_switch playability with
  | Throw e => Throw e
  | Return (Some r) => Return r
  | Return None =>
      if negb (String.eqb (status playability) "OK")
      then Return (error_ "content.video.unavailable")
      else if is_live basicInfo then Return (error_ "content.video.live")
      else if exceeds (duration basicInfo) durationLimit then Return (error_ "content.too_long")
      else if strict_ne (info_id basicInfo) (o_id o) then Return (RError "fetch.fail" true)
      else select_streams o info
  end.

End Service.

(** ** The session manager *)

Definition PLAYER_REFRESH_PERIOD : Z := 1000 * 60 * 15.

(** Truthiness of [values[k]]; an absent key reads as [undefined]. *)
Definition truthy (v : option jsval) : bool :=
  match v with
  | None | Some VUndefined | Some VNull => false
  | Some (VBool b) => b
  | Some (VNum z) => negb (z =? 0)%Z
  | Some (VStr s) => JS.truthy_string (Some s)
  end.

(** [typeof values[k] === 'string'] *)
Definition is_string (v : option jsval) : bool :=
  match v with
  | Some (VStr _) => true
  | _ => false
  end.

(** [values.k], an absent key reading as [undefined]. *)
Definition get_prop (values : gmap string jsval) (k : string) : jsval :=
  default VUndefined (values !! k).

(** Lines 30-49. The argument is [cookie.values()] of the cookie, or [None]
    when there is no cookie; the copy that is modified is the result. *)
Definition transformSessionData (cookie : option (gmap string jsval))
  : option (gmap string jsval) :=
  match cookie with
  | None => None
  | Some values =>
      if existsb (fun x => negb (is_string (values !! x))) ["access_token"; "refresh_token"]
      then None
      else if truthy (values !! "expires")
      then Some (delete "expires" (<["expiry_date" := get_prop values "expires"]> values))
      else if negb (truthy (values !! "expiry_date")) then None
      else Some values
  end.

(** [a.getTime() !== b.getTime()]; [None] is the NaN of an invalid date. *)
Definition time_ne (a b : option Z) : bool :=
  match a, b with
  | Some x, Some y => negb (x =? y)%Z
  | _, _ => true
  end.

Section SessionManager.

(** [opaque] is the type of the values of youtubei.js the module only hands
    on, [transport] that of a fetch function. [DateTime v] is
    [new Date(v).getTime()], with [None] for NaN, and [toISOString t] the
    ISO string of the date whose time value is [t]. *)
Context {opaque transport : Type}.
Variable DateTime : jsval -> option Z.
Variable toISOString : Z -> string.

Record OAuth := {
  client_id : option (gmap string jsval);
  oauth2_tokens : option (gmap string jsval)
}.

Record Session := {
  context : opaque;
  key : opaque;
  api_version : opaque;
  account_index : opaque;
  player : opaque;
  http_fetch : transport;
  cache : opaque;
  logged_in : bool;
  oauth : OAuth
}.

Record Innertube := { session : Session }.

(** [new Session(context, key, api_version, account_index, player,
    undefined, fetch, cache)]: no cookie is given, so the session starts
    logged out, with an OAuth state that holds nothing. *)
Definition new_Session (context key api_version account_index player : opaque)
    (fetch : transport) (cache : opaque) : Session :=
  {| context := context; key := key; api_version := api_version;
     account_index := account_index; player := player;
     http_fetch := fetch; cache := cache;
     logged_in := false;
     oauth := {| client_id := None; oauth2_tokens := None |} |}.

(** What the world outside the module does during one call: the two
    readings of the clock (lines 52 and 57), and the calls into
    youtubei.js. [oauth_init] and [refreshAccessToken] give the OAuth state
    of the session after the call. *)
Record World := {
  now_check : Z;
  now_stamp : Z;
  Innertube_create : option transport -> Completion Innertube;
  oauth_init : gmap string jsval -> Completion OAuth;
  shouldRefreshToken : OAuth -> bool;
  refreshAccessToken : OAuth -> Completion OAuth;
  getBasicInfo : Innertube -> string -> string -> Completion (option VideoInfo)
}.

(** The module's variables [innertube] and [lastRefreshedAt] (both
    [undefined] at first), and the credential store. *)
Record State := {
  innertube : option Innertube;
  lastRefreshedAt : option Z;
  youtube_oauth : option (gmap string jsval)
}.

(** The calls a run makes, in order. *)
Inductive Event :=
| EvCreate
| EvInit (oauthData : gmap string jsval)
| EvRefresh
| EvUpdate (values : gmap string jsval).

(** A computation reads and writes the state, records its calls, and
    returns or throws. *)
Definition M (A : Type) : Type := State -> Completion A * State * list Event.

Definition ret {A} (a : A) : M A := fun st => (Return a, st, []).

Definition throw {A} (e : Exn) : M A := fun st => (Throw e, st, []).

Definition bind {A B} (m : M A) (k : A -> M B) : M B :=
  fun st =>
    match m st with
    | (Return a, st1, ev1) =>
        match k a st1 with
        | (r, st2, ev2) => (r, st2, ev1 ++ ev2)
        end
    | (Throw e, st1, ev1) => (Throw e, st1, ev1)
    end.

Notation "'do' x <- m ; k" := (bind m (fun x => k))
  (at level 10, x name, m at level 100, k at level 200).
Notation "m ;; k" := (bind m (fun _ => k))
  (at level 100, k at level 200, right associativity).

Definition get : M State := fun st => (Return st, st, []).

(** An awaited call into youtubei.js. *)
Definition call {A} (e : Event) (r : Completion A) : M A := fun st => (r, st, [e]).

Definition set_innertube (it : Innertube) : M unit :=
  fun st => (Return tt,
             {| innertube := Some it; lastRefreshedAt := lastRefreshedAt st;
                youtube_oauth := youtube_oauth st |}, []).

Definition set_lastRefreshedAt (t : Z) : M unit :=
  fun st => (Return tt,
             {| innertube := innertube st; lastRefreshedAt := Some t;
                youtube_oauth := youtube_oauth st |}, []).

(** Modelled from the spec: [getCookie] of cookie/manager.js, which is not
    among the sources. [CredentialStore.get(slotName)] gives the bundle of
    the slot, or nothing. *)
Definition getCookie : M (option (gmap string jsval)) :=
  fun st => (Return (youtube_oauth st), st, []).

(** Modelled from the spec: [updateCookieValues] of cookie/manager.js, which
    is not among the sources. [CredentialStore.update(slotName,
    partialBundle)] merges the fields of the partial bundle into the stored
    one. *)
Definition updateCookieValues (values : gmap string jsval) : M unit :=
  fun st => (Return tt,
             {| innertube := innertube st; lastRefreshedAt := lastRefreshedAt st;
                youtube_oauth := Some (values ∪ default ∅ (youtube_oauth st)) |},
             [EvUpdate values]).

(** [lastRefreshedAt + PLAYER_REFRESH_PERIOD < new Date()]; the sum is NaN
    while [lastRefreshedAt] is [undefined]. *)
Definition shouldRefreshPlayer (last : option Z) (now : Z) : bool :=
  match last with
  | Some t => (t + PLAYER_REFRESH_PERIOD <? now)%Z
  | None => false
  end.

(** The object literal of lines 89-93. *)
Definition refreshed_values (o : OAuth) (tokens : gmap string jsval) (newExpiry : Z)
  : gmap string jsval :=
  <["expiry_date" := VStr (toISOString newExpiry)]> (tokens ∪ default ∅ (client_id o)).

Definition with_oauth (s : Session) (logged : bool) (o : OAuth) : Session :=
  {| context := context s; key := key s; api_version := api_version s;
     account_index := account_index s; player := player s;
     http_fetch := http_fetch s; cache := cache s;
     logged_in := logged; oauth := o |}.

(** Lines 54-57. *)
Definition rebuild (w : World) (customFetch : option transport) : M unit :=
  do it <- call EvCreate (Innertube_create w customFetch);
  set_innertube it ;;
  set_lastRefreshedAt (now_stamp w).

(** Lines 52-58, and the reading of [innertube] that follows them. *)
Definition acquire (w : World) (customFetch : option transport) : M Innertube :=
  do st <- get;
  let refresh := shouldRefreshPlayer (lastRefreshedAt st) (now_check w) in
  (if negb (bool_decide (is_Some (innertube st))) || refresh
   then rebuild w customFetch
   else ret tt) ;;
  do st' <- get;
  match innertube st' with
  | Some it => ret it
  | None => throw (TypeError "Cannot read properties of undefined (reading 'session')")
  end.

(** Lines 60-69. *)
Definition clone_session (it : Innertube) (customFetch : option transport) : Session :=
  new_Session (context (session it)) (key (session it)) (api_version (session it))
              (account_index (session it)) (player (session it))
              (match customFetch with
               | Some f => f
               | None => http_fetch (session it)
               end)
              (cache (session it)).

(** Lines 74-77. *)
Definition authenticate (w : World) (oauthData : option (gmap string jsval))
    (session0 : Session) : M Session :=
  match oauthData with
  | Some data =>
      if negb (logged_in session0) then
        do o <- call (EvInit data) (oauth_init w data);
        ret (with_oauth session0 true o)
      else ret session0
  | None => ret session0
  end.

(** Lines 84-94: the expiry of the stored bundle against that of the
    session, and the write when they differ. *)
Definition persist_expiry (cookie : option (gmap string jsval)) (session' : Session)
  : M Session :=
  match cookie with
  | None => throw (TypeError "Cannot read properties of undefined (reading 'values')")
  | Some cookieValues =>
      let oldExpiry := DateTime (get_prop cookieValues "expiry_date") in
      match oauth2_tokens (oauth session') with
      | None =>
          throw (TypeError "Cannot read properties of undefined (reading 'expiry_date')")
      | Some tokens =>
          let newExpiry := DateTime (get_prop tokens "expiry_date") in
          if time_ne oldExpiry newExpiry then
            match newExpiry with
            | None => throw (RangeError "Invalid time value")
            | Some t =>
                updateCookieValues (refreshed_values (oauth session') tokens t) ;;
                ret session'
            end
          else ret session'
      end
  end.

(** Lines 79-95. *)
Definition refresh_and_persist (w : World) (cookie : option (gmap string jsval))
    (session1 : Session) : M Session :=
  if logged_in session1 then
    do session' <-
      if shouldRefreshToken w (oauth session1) then
        do o <- call EvRefresh (refreshAccessToken w (oauth session1));
        ret (with_oauth session1 (logged_in session1) o)
      else ret session1;
    persist_expiry cookie session'
  else ret session1.

(** Lines 71-95. *)
Definition login (w : World) (session0 : Session) : M Session :=
  do cookie <- getCookie;
  let oauthData := transformSessionData cookie in
  do session1 <- authenticate w oauthData session0;
  refresh_and_persist w cookie session1.

(** Lines 51-99. *)
Definition cloneInnertube (w : World) (customFetch : option transport) : M Innertube :=
  do it <- acquire w customFetch;
  do session <- login w (clone_session it customFetch);
  ret {| session := session |}.

(** [request_fetch o] is the fetch function the default export builds
    around [o.dispatcher]. *)
Variable request_fetch : Request -> transport.
Variable StringToNumber : string -> jsnum.
Variable cleanString : string -> string.
Variable durationLimit : Z.

(** [e.message?.endsWith(s)] and [e.message?.includes(s)] *)
Definition message_endsWith (e : Exn) (s : string) : bool :=
  match message e with
  | Some m => JS.endsWith m s
  | None => false
  end.

Definition message_includes (e : Exn) (s : string) : bool :=
  match message e with
  | Some m => JS.includes m s
  | None => false
  end.

(** Lines 101-303: the default export. *)
Definition youtube (w : World) (o : Request) : M Response :=
  fun st =>
    match cloneInnertube w (Some (request_fetch o)) st with
    | (Throw e, st1, ev) =>
        if message_endsWith e "decipher algorithm"
        then (Return (error_ "youtube.decipher"), st1, ev)
        else if message_includes e "refresh access token"
        then (Return (error_ "youtube.token_expired"), st1, ev)
        else (Throw e, st1, ev)
    | (Return yt, st1, ev) =>
        match getBasicInfo w yt (o_id o)
                (if logged_in (session yt) then "ANDROID" else "IOS") with
        | Throw e =>
            if str_is (info_reason e) "This video is private"
            then (Return (error_ "content.video.private"), st1, ev)
            else if str_is (message e) "This video is unavailable"
            then (Return (error_ "content.video.unavailable"), st1, ev)
            else (Return (error_ "fetch.fail"), st1, ev)
        | Return None => (Return (error_ "fetch.fail"), st1, ev)
        | Return (Some info) =>
            (process StringToNumber cleanString durationLimit o info, st1, ev)
        end
    end.

End SessionManager.

(** ** Decimal literals and sample data *)

Definition digit (c : ascii) : option Z :=
  let n := Z.of_nat (nat_of_ascii c) in
  if ((48 <=? n) && (n <=? 57))%Z then Some (n - 48)%Z else None.

Fixpoint decimal_go (s : string) (acc : Z) : option Z :=
  match s with
  | EmptyString => Some acc
  | String c s' =>
      match digit c with
      | Some d => decimal_go s' (10 * acc + d)%Z
      | None => None
      end
  end.

(** The integer a string of one or more decimal digits denotes. *)
Definition decimal_value (s : string) : option Z :=
  match s with
  | EmptyString => None
  | String _ _ => decimal_go s 0
  end.

(** What is assumed of [StringToNumber]: a string of decimal digits that
    denotes an integer up to 2^53 converts to that integer. *)
Definition reads_decimals (StringToNumber : string -> jsnum) : Prop :=
  forall s z, decimal_value s = Some z -> (z <= 2 ^ 53)%Z ->
              StringToNumber s = Fin (inject_Z z).

(** An instance for the examples: the conversion of the empty string and of
    strings of decimal digits. The examples apply it to such strings only;
    on the other strings it answers NaN. *)
Definition decimalNumber (s : string) : jsnum :=
  match s with
  | EmptyString => Fin 0
  | String _ _ =>
      match decimal_value s with
      | Some z => Fin (inject_Z z)
      | None => NaN
      end
  end.

(** A response that is a plan, not an error. *)
Definition is_plan (r : Response) : bool :=
  match r with
  | RError _ _ => false
  | RAudio _ _ _ _ _ _ | RMerge _ _ _ _ _ _ => true
  end.

Definition with_format (o : Request) (f : FormatField) : Request :=
  {| o_id := o_id o; format := f; quality := quality o; dubLang := dubLang o;
     isAudioOnly := isAudioOnly o; startTime := startTime o; endTime := endTime o;
     watermark := watermark o |}.

Definition video_format (mime label link : string) (rate w h : Z) : Format :=
  {| mime_type := mime; bitrate := rate; has_video := true; has_audio := false;
     content_length := Some 1000%Z; quality_label := Some label;
     width := w; height := h; language := None; is_original := false;
     audio_track := None; url := link |}.

Definition audio_format (mime link : string) (rate : Z) (lang : option string)
    (original : bool) (track : option AudioTrack) : Format :=
  {| mime_type := mime; bitrate := rate; has_video := false; has_audio := true;
     content_length := Some 500%Z; quality_label := None;
     width := 0; height := 0; language := lang; is_original := original;
     audio_track := track; url := link |}.

Definition sample_basic (vid : string) : BasicInfo :=
  {| info_id := Some vid; title := " A title "; author := "Artist - Topic";
     duration := Some 200%Z; is_live := false; short_description := None |}.

Definition ok_playability : Playability :=
  {| status := "OK"; reason := Some EmptyString; error_screen := None |}.

Definition sample_request (vid : string) (f : FormatField) (q : string)
    (dub : option string) (audioOnly : bool) : Request :=
  {| o_id := vid; format := f; quality := q; dubLang := dub; isAudioOnly := audioOnly;
     startTime := VUndefined; endTime := VUndefined; watermark := VUndefined |}.

(** The catalogue of the end-to-end case of the specification: three h264
    videos and two audio tracks, the second one a Spanish dub. *)
Definition e2e_formats : list Format :=
  [ video_format "video/mp4; codecs=avc1.4d400c" "144p" "link1" 100000 256 144;
    video_format "video/mp4; codecs=avc1.4d401f" "720p" "link2" 1500000 1280 720;
    video_format "video/mp4; codecs=avc1.640028" "1080p" "link3" 4000000 1920 1080;
    audio_format "audio/mp4; codecs=mp4a.40.2" "orig" 128000 (Some "en") true
                 (Some {| audio_is_default := true |});
    audio_format "audio/mp4; codecs=mp4a.40.2" "dub" 160000 (Some "es") false
                 (Some {| audio_is_default := false |}) ].

Definition e2e_info : VideoInfo :=
  {| playability_status := ok_playability; basic_info := sample_basic "abc";
     adaptive_formats := e2e_formats |}.

(** ** The vocabulary of the selector properties *)

(** [x] is the first element of [l] that satisfies [P]. *)
Definition first_such {A} (P : A -> bool) (l : list A) (x : A) : Prop :=
  exists l1 l2, l = l1 ++ x :: l2 /\ P x = true /\ Forall (fun y => P y = false) l1.

(** The part of [s] before the first [c], all of [s] when [c] is not in it. *)
Fixpoint before (c : ascii) (s : string) : string :=
  match s with
  | EmptyString => EmptyString
  | String a s' => if Ascii.eqb c a then EmptyString else String a (before c s')
  end.

(** The part of [s] before the first 'p' or 's'. *)
Fixpoint prefix_before_p_or_s (s : string) : string :=
  match s with
  | EmptyString => EmptyString
  | String a s' =>
      if Ascii.eqb "p" a || Ascii.eqb "s" a then EmptyString
      else String a (prefix_before_p_or_s s')
  end.

(** [a] comes before [b] in descending order of bitrate. *)
Definition bitrate_ge (a b : Format) : Prop := (bitrate b <= bitrate a)%Z.

(** ** The vocabulary of the session properties, and a sample world *)

Definition is_create (e : Event) : bool :=
  match e with
  | EvCreate => true
  | _ => false
  end.

Definition is_update (e : Event) : bool :=
  match e with
  | EvUpdate _ => true
  | _ => false
  end.

(** The number of calls of [Innertube.create] in a run. *)
Definition rebuilds (evs : list Event) : nat := List.length (List.filter is_create evs).

(** The client was last refreshed more than the period before [now]. *)
Definition stale {opaque transport : Type} (st : @State opaque transport) (now : Z) : Prop :=
  exists t, lastRefreshedAt st = Some t /\ (now - t > PLAYER_REFRESH_PERIOD)%Z.

(** A bundle without one of the two tokens as a string, or with neither
    [expires] nor [expiry_date]. *)
Definition incomplete (values : gmap string jsval) : Prop :=
  is_string (values !! "access_token") = false
  \/ is_string (values !! "refresh_token") = false
  \/ (values !! "expires" = None /\ values !! "expiry_date" = None).

(** The OAuth state of a session that has just been made. *)
Definition fresh_oauth : OAuth := {| client_id := None; oauth2_tokens := None |}.

(** An instance of [DateTime] for the examples, which keep numbers as
    expiry dates: [new Date(n).getTime()] is [n] for an integer [n] within
    8.64e15 of zero, and [new Date(undefined)] is an invalid date. The
    examples read no other value. *)
Definition sampleDateTime (v : jsval) : option Z :=
  match v with
  | VNum z => if ((-8640000000000000 <=? z) && (z <=? 8640000000000000))%Z
              then Some z else None
  | _ => None
  end.

(** [n] in decimal, with zeros in front up to [width] digits. *)
Definition pad (width : nat) (n : Z) : string :=
  let digits := pretty n in
  String.concat EmptyString (repeat "0" (width - String.length digits)) +:+ digits.

(** An instance of [toISOString] for the examples: the ISO string of a time
    value that falls in the years 0 to 9999, through the civil date of the
    day number. *)
Definition sampleISOString (t : Z) : string :=
  let days := (t / 86400000)%Z in
  let ms := (t mod 86400000)%Z in
  let z := (days + 719468)%Z in
  let era := (z / 146097)%Z in
  let doe := (z - era * 146097)%Z in
  let yoe := ((doe - doe / 1460 + doe / 36524 - doe / 146096) / 365)%Z in
  let doy := (doe - (365 * yoe + yoe / 4 - yoe / 100))%Z in
  let mp := ((5 * doy + 2) / 153)%Z in
  let d := (doy - (153 * mp + 2) / 5 + 1)%Z in
  let m := (if (mp <? 10)%Z then mp + 3 else mp - 9)%Z in
  let y := (yoe + era * 400 + (if (m <=? 2)%Z then 1 else 0))%Z in
  pad 4 y +:+ "-" +:+ pad 2 m +:+ "-" +:+ pad 2 d +:+ "T"
  +:+ pad 2 (ms / 3600000) +:+ ":" +:+ pad 2 (ms / 60000 mod 60) +:+ ":"
  +:+ pad 2 (ms / 1000 mod 60) +:+ "." +:+ pad 3 (ms mod 1000) +:+ "Z".

Definition sample_client : @Innertube unit unit :=
  {| session := new_Session tt tt tt tt tt tt tt |}.

Definition sample_bundle : gmap string jsval :=
  <["access_token" := VStr "old-access"]>
    (<["refresh_token" := VStr "refresh"]>
       (<["expiry_date" := VNum 1700000000000]> ∅)).

(** A bundle that has no refresh token. *)
Definition bundle_without_refresh : gmap string jsval :=
  <["access_token" := VStr "old-access"]> (<["expiry_date" := VNum 1700000000000]> ∅).

(** A world in which the client is made without error, the session is
    initialised with the tokens it is given, and a refresh moves the expiry
    by an hour. *)
Definition sample_world (now : Z) (refresh : bool) : @World unit unit :=
  {| now_check := now;
     now_stamp := (now + 250)%Z;
     Innertube_create := fun _ => Return sample_client;
     oauth_init := fun data =>
       Return {| client_id := Some (<["client_id" := VStr "client"]> ∅);
                 oauth2_tokens := Some data |};
     shouldRefreshToken := fun _ => refresh;
     refreshAccessToken := fun o =>
       Return {| client_id := client_id o;
                 oauth2_tokens :=
                   Some (<["expiry_date" := VNum 1700003600000]>
                           (<["access_token" := VStr "new-access"]>
                              (default ∅ (oauth2_tokens o)))) |};
     getBasicInfo := fun _ _ _ => Return (Some e2e_info) |}.

Definition sample_state (client : option (@Innertube unit unit)) (last : option Z)
    (cookie : option (gmap string jsval)) : @State unit unit :=
  {| innertube := client; lastRefreshedAt := last; youtube_oauth := cookie |}.

(** A run that logs in with [sample_bundle] and refreshes the token. *)
Definition login_world : @World unit unit := sample_world 1700000000100 true.

Definition login_state : @State unit unit :=
  sample_state (Some sample_client) (Some 1700000000000) (Some sample_bundle).

Definition login_run : Completion (@Innertube unit unit) * @State unit unit * list Event :=
  cloneInnertube sampleDateTime sampleISOString login_world (Some tt) login_state.

Definition login_client : @Innertube unit unit :=
  match fst (fst login_run) with
  | Return yt => yt
  | Throw _ => sample_client
  end.

(** A run with a bundle that has no refresh token. *)
Definition incomplete_state : @State unit unit :=
  sample_state None None (Some bundle_without_refresh).

Definition incomplete_run : Completion (@Innertube unit unit) * @State unit unit * list Event :=
  cloneInnertube sampleDateTime sampleISOString (sample_world 1700000000100 false)
                 (Some tt) incomplete_state.

(** [dub_override dub fs d]: a dub language is requested, [d] is what the
    search of line 216 finds for it, and [d] is not marked as a default
    track. *)
Definition dub_override (dub : option string) (fs : list Format) (d : Format) : Prop :=
  exists lang, dub = Some lang /\ lang <> EmptyString
               /\ dubbedAudio lang fs = Some d /\ track_is_default d = false.

Definition response_attributes (r : Response) : option FilenameAttributes :=
  match r with
  | RError _ _ => None
  | RAudio _ _ _ fa _ _ | RMerge _ _ _ _ fa _ => Some fa
  end.

Definition response_audio_url (r : Response) : option string :=
  match r with
  | RError _ _ => None
  | RAudio u _ _ _ _ _ => Some u
  | RMerge (_, u) _ _ _ _ _ => Some u
  end.

(** An info that asks for a login and gives no reason. *)
Definition login_without_reason : VideoInfo :=
  {| playability_status :=
       {| status := "LOGIN_REQUIRED"; reason := None; error_screen := None |};
     basic_info := sample_basic "abc";
     adaptive_formats := e2e_formats |}.

(** A description after the template, its last paragraph written without a
    space after the colon. *)
Definition released_without_space : string :=
  "Provided to YouTube by Label" +:+ LF +:+ LF +:+ "Song" +:+ LF +:+ LF +:+ "Album"
  +:+ LF +:+ LF +:+ "2020 Label" +:+ LF +:+ LF +:+ "Released on:2020-01-01".

Definition released_info : BasicInfo :=
  {| info_id := Some "abc"; title := "Song"; author := "Artist - Topic";
     duration := Some 200%Z; is_live := false;
     short_description := Some released_without_space |}.

(** Two tracks in Spanish, the first one a default track, and the original
    track, in the order of their bitrates. *)
Definition two_spanish_tracks : list Format :=
  [ audio_format "audio/mp4; codecs=mp4a.40.2" "es-default" 200000 (Some "es") false
                 (Some {| audio_is_default := true |});
    audio_format "audio/mp4; codecs=mp4a.40.2" "es-dub" 160000 (Some "es") false
                 (Some {| audio_is_default := false |});
    audio_format "audio/mp4; codecs=mp4a.40.2" "orig" 128000 (Some "en") true
                 (Some {| audio_is_default := false |}) ].

(** A 720p60 video with a higher bitrate than the 1080p video next to it. *)
Definition v720 : Format :=
  video_format "video/mp4; codecs=avc1.4d4020" "720p60" "link720" 5000000 1280 720.

Definition v1080 : Format :=
  video_format "video/mp4; codecs=avc1.640028" "1080p" "link1080" 4000000 1920 1080.

Definition a_orig : Format :=
  audio_format "audio/mp4; codecs=mp4a.40.2" "orig" 128000 (Some "en") true None.

Definition max_info : VideoInfo :=
  {| playability_status := ok_playability; basic_info := sample_basic "abc";
     adaptive_formats := [v1080; a_orig; v720] |}.

(** The request and the answer of the end-to-end case. *)
Definition e2e_request : Request :=
  sample_request "abc" (FormatKey vp9) "720" (Some "es") false.

Definition e2e_response : Response :=
  RMerge ("link2", "dub") VUndefined VUndefined VUndefined
    {| service := "youtube"; fa_id := "abc"; fa_title := "A title";
       fa_author := "Artist"; youtubeDubName := Some "es";
       qualityLabel := Some "720p"; resolution := Some "1280x720";
       extension := Some "mp4"; youtubeFormat := Some "h264" |}
    {| fm_title := "A title"; artist := "Artist"; album := None;
       copyright := None; date := None |}.

(** A catalogue whose only variant with the opus tag is an audio track. *)
Definition opus_audio : Format :=
  audio_format "audio/webm; codecs=opus" "opus" 130000 (Some "en") true None.

Definition opus_info : VideoInfo :=
  {| playability_status := ok_playability; basic_info := sample_basic "abc";
     adaptive_formats := [v1080; opus_audio; v720] |}.

(** A bundle as the OAuth flow first stores it, with [expires]. *)
Definition bundle_with_expires : gmap string jsval :=
  <["access_token" := VStr "access"]>
    (<["refresh_token" := VStr "refresh"]>
       (<["expires" := VStr "2024-01-01T00:00:00.000Z"]>
          (<["scope" := VStr "youtube"]> ∅))).

Definition invalid_tokens : Exn :=
  {| exn_name := "OAuth2Error"; message := Some "Invalid tokens provided.";
     info_reason := None |}.

(** A world in which [oauth.init] throws. *)
Definition init_fails_world : @World unit unit :=
  {| now_check := 1700000000100;
     now_stamp := 1700000000350;
     Innertube_create := fun _ => Return sample_client;
     oauth_init := fun _ => Throw invalid_tokens;
     shouldRefreshToken := fun _ => false;
     refreshAccessToken := fun o => Return o;
     getBasicInfo := fun _ _ _ => Return (Some e2e_info) |}.

Definition init_fails_run : Completion (@Innertube unit unit) * @State unit unit * list Event :=
  cloneInnertube sampleDateTime sampleISOString init_fails_world (Some tt) login_state.

(** A world in which [getBasicInfo] gives [fetched]. *)
Definition fetch_world (fetched : Completion (option VideoInfo)) : @World unit unit :=
  {| now_check := 1700000000100;
     now_stamp := 1700000000350;
     Innertube_create := fun _ => Return sample_client;
     oauth_init := fun data => Return {| client_id := None; oauth2_tokens := Some data |};
     shouldRefreshToken := fun _ => false;
     refreshAccessToken := fun o => Return o;
     getBasicInfo := fun _ _ _ => fetched |}.

Definition video_unavailable : Exn :=
  {| exn_name := "InnertubeError"; message := Some "This video is unavailable";
     info_reason := None |}.

(** The default export in the sample worlds, with no stored credentials. *)
Definition sample_youtube (w : @World unit unit) (o : Request)
  : Completion Response * @State unit unit * list Event :=
  youtube sampleDateTime sampleISOString (fun _ => tt) decimalNumber (fun s => s) 10800
          w o (sample_state None None None).

(** Two audio tracks, neither of them the original one. *)
Definition es_default : Format :=
  audio_format "audio/mp4; codecs=mp4a.40.2" "es-default" 200000 (Some "es") false
               (Some {| audio_is_default := true |}).

Definition es_dub : Format :=
  audio_format "audio/mp4; codecs=mp4a.40.2" "es-dub" 160000 (Some "es") false
               (Some {| audio_is_default := false |}).

Definition spanish_only_info : VideoInfo :=
  {| playability_status := ok_playability; basic_info := sample_basic "abc";
     adaptive_formats := [es_dub; es_default] |}.



(** A variant that carries both video and audio. *)
Definition muxed_format : Format :=
  {| mime_type := "video/mp4; codecs=avc1.42001E, mp4a.40.2"; bitrate := 500000;
     has_video := true; has_audio := true; content_length := Some 2000%Z;
     quality_label := Some "360p"; width := 640; height := 360; language := None;
     is_original := false; audio_track := None; url := "muxed" |}.

Definition muxed_info : VideoInfo :=
  {| playability_status := ok_playability; basic_info := sample_basic "abc";
     adaptive_formats := [muxed_format] |}.

(** * Properties *)

Example iso_string : sampleISOString 1700000000000 = "2023-11-14T22:13:20.000Z".
Proof. vm_compute. reflexivity. Qed.

Example iso_epoch : sampleISOString 0 = "1970-01-01T00:00:00.000Z".
Proof. vm_compute. reflexivity. Qed.

Example iso_leap : sampleISOString 951782400000 = "2000-02-29T00:00:00.000Z".
Proof. vm_compute. reflexivity. Qed.

Example e2e_plan :
  process decimalNumber (fun s => s) 10800
          (sample_request "abc" (FormatKey vp9) "720" (Some "es") false) e2e_info
  = Return (RMerge ("link2", "dub") VUndefined VUndefined VUndefined
      {| service := "youtube"; fa_id := "abc"; fa_title := "A title";
         fa_author := "Artist"; youtubeDubName := Some "es";
         qualityLabel := Some "720p"; resolution := Some "1280x720";
         extension := Some "mp4"; youtubeFormat := Some "h264" |}
      {| fm_title := "A title"; artist := "Artist"; album := None;
         copyright := None; date := None |}).
Proof. vm_compute. reflexivity. Qed.

Example split_desc : JS.split ("a" +:+ LF +:+ LF +:+ LF +:+ "b") (LF +:+ LF) 5 = ["a"; LF +:+ "b"].
Proof. reflexivity. Qed.

Example trim_ex : JS.trim "  2020-01-01 " = "2020-01-01".
Proof. reflexivity. Qed.

Example remove_ex : JS.remove_first "Artist - Topic" "- Topic" = "Artist ".
Proof. reflexivity. Qed.

Example split_p : JS.split "1080p60" "p" 2 = ["1080"; "60"].
Proof. reflexivity. Qed.

Example split_pp : JS.split "apbpc" "p" 2 = ["a"; "b"].
Proof. reflexivity. Qed.

(** ** Lists and strings *)

Lemma find_first_such {A} (P : A -> bool) (l : list A) (x : A) :
  List.find P l = Some x <-> first_such P l x.
Proof.
  induction l as [|y l IH]; simpl.
  - split; [discriminate|].
    intros (l1 & l2 & E & _). destruct l1; discriminate.
  - destruct (P y) eqn:Py.
    + split.
      * intros [= ->]. exists [], l. repeat split; auto.
      * intros (l1 & l2 & E & Px & Hl1).
        destruct l1 as [|z l1]; simpl in E; injection E as -> E; [reflexivity|].
        apply Forall_inv in Hl1. congruence.
    + rewrite IH. split.
      * intros (l1 & l2 & -> & Px & Hl1). exists (y :: l1), l2.
        repeat split; auto.
      * intros (l1 & l2 & E & Px & Hl1).
        destruct l1 as [|z l1]; simpl in E; injection E as -> E; [congruence|].
        exists l1, l2. repeat split; auto. eapply Forall_inv_tail; eauto.
Qed.

Lemma append_cons (a : ascii) (s t : string) : String a s +:+ t = String a (s +:+ t).
Proof. reflexivity. Qed.

Lemma append_assoc (a b c : string) : (a +:+ b) +:+ c = a +:+ (b +:+ c).
Proof.
  induction a as [|x a IH]; [reflexivity|].
  rewrite !append_cons. now rewrite IH.
Qed.

Lemma append_empty_r (a : string) : a +:+ EmptyString = a.
Proof.
  induction a as [|x a IH]; [reflexivity|].
  rewrite append_cons. now rewrite IH.
Qed.

Lemma startsWith_empty (s : string) : JS.startsWith s EmptyString = true.
Proof. destruct s; reflexivity. Qed.

Lemma split_go_char_hd (c : ascii) (s cur : string) :
  hd EmptyString (JS.split_go (String c EmptyString) s O cur) = cur +:+ before c s.
Proof.
  revert cur. induction s as [|a s IH]; intros cur; simpl.
  - now rewrite append_empty_r.
  - rewrite startsWith_empty. destruct (Ascii.eqb c a); simpl.
    + now rewrite append_empty_r.
    + rewrite IH, append_assoc. reflexivity.
Qed.

Lemma split_char_hd (c : ascii) (s : string) :
  hd EmptyString (JS.split s (String c EmptyString) 2) = before c s.
Proof.
  unfold JS.split.
  pose proof (split_go_char_hd c s EmptyString) as H. simpl in H.
  destruct (JS.split_go (String c EmptyString) s 0 EmptyString) as [|x [|y l]];
    simpl in *; exact H.
Qed.

Lemma before_s_before_p (s : string) :
  before "s" (before "p" s) = prefix_before_p_or_s s.
Proof.
  induction s as [|a s IH]; [reflexivity|].
  cbn [before prefix_before_p_or_s].
  destruct (Ascii.eqb "p" a); [reflexivity|].
  cbn [before orb]. destruct (Ascii.eqb "s" a); [reflexivity|]. now rewrite IH.
Qed.

Lemma qual_prefix (i : Format) (label : string) :
  quality_label i = Some label -> label <> EmptyString ->
  qual i = Some (prefix_before_p_or_s label).
Proof.
  intros E Hne. unfold qual. rewrite E.
  destruct label as [|a l]; [congruence|].
  now rewrite !split_char_hd, before_s_before_p.
Qed.

Lemma qual_none (i : Format) :
  quality_label i = None \/ quality_label i = Some EmptyString -> qual i = None.
Proof. unfold qual. intros [-> | ->]; reflexivity. Qed.

(** ** Numbers *)

Lemma Qle_bool_inject_Z (a b : Z) : Qle_bool (inject_Z a) (inject_Z b) = (a <=? b)%Z.
Proof. unfold Qle_bool, inject_Z; simpl. now rewrite !Z.mul_1_r. Qed.

Lemma decimalNumber_reads_decimals : reads_decimals decimalNumber.
Proof.
  intros s z H _. unfold decimalNumber.
  destruct s; [discriminate|]. now rewrite H.
Qed.

Lemma num_gt_NaN_r (a : jsnum) : num_gt a NaN = false.
Proof. destruct a; reflexivity. Qed.

(** ** The sort *)

Lemma insert_by_bitrate_perm (x : Format) (l : list Format) :
  Permutation (insert_by_bitrate x l) (x :: l).
Proof.
  induction l as [|y l IH]; simpl; [reflexivity|].
  destruct (bitrate y <=? bitrate x)%Z; [reflexivity|].
  rewrite IH. apply perm_swap.
Qed.

Lemma sort_by_bitrate_perm (l : list Format) : Permutation (sort_by_bitrate l) l.
Proof.
  induction l as [|x l IH]; simpl; [reflexivity|].
  rewrite insert_by_bitrate_perm. now constructor.
Qed.

Lemma insert_by_bitrate_sorted (x : Format) (l : list Format) :
  Sorted bitrate_ge l -> Sorted bitrate_ge (insert_by_bitrate x l).
Proof.
  induction l as [|y l IH]; simpl; intros Hs.
  - repeat constructor.
  - destruct (bitrate y <=? bitrate x)%Z eqn:E.
    + constructor; [assumption|]. constructor. unfold bitrate_ge. lia.
    + inversion Hs as [|? ? Hl Hy]; subst.
      constructor; [auto|].
      destruct l as [|z l]; simpl.
      * constructor. unfold bitrate_ge. lia.
      * destruct (bitrate z <=? bitrate x)%Z.
        -- constructor. unfold bitrate_ge. lia.
        -- constructor. now inversion Hy.
Qed.

Lemma sort_by_bitrate_sorted (l : list Format) : Sorted bitrate_ge (sort_by_bitrate l).
Proof.
  induction l as [|x l IH]; simpl; [constructor|].
  now apply insert_by_bitrate_sorted.
Qed.

(** The sort is stable: it leaves a list that is already in order as it is. *)
Lemma sort_by_bitrate_id (l : list Format) :
  Sorted bitrate_ge l -> sort_by_bitrate l = l.
Proof.
  induction l as [|x l IH]; simpl; intros Hs; [reflexivity|].
  inversion Hs as [|? ? Hl Hx]; subst. rewrite (IH Hl).
  destruct l as [|y l]; simpl; [reflexivity|].
  inversion Hx; subst. unfold bitrate_ge in *.
  destruct (bitrate y <=? bitrate x)%Z eqn:E; [reflexivity|lia].
Qed.

Lemma filterByCodec_elements (format : Codec) (formats : list Format) (e : Format) :
  In e (filterByCodec format formats) <-> In e formats /\ matches_codec format e = true.
Proof.
  unfold filterByCodec. rewrite <- filter_In.
  split; apply Permutation_in;
    [apply sort_by_bitrate_perm | symmetry; apply sort_by_bitrate_perm].
Qed.

Lemma filterByCodec_nil (format : Codec) (formats : list Format) :
  filterByCodec format formats = [] <->
  Forall (fun e => matches_codec format e = false) formats.
Proof.
  rewrite List.Forall_forall. split.
  - intros E e He. destruct (matches_codec format e) eqn:M; [|reflexivity].
    assert (In e (filterByCodec format formats)) as Hin
      by (apply filterByCodec_elements; split; assumption).
    rewrite E in Hin. destruct Hin.
  - intros H. destruct (filterByCodec format formats) as [|e l] eqn:E; [reflexivity|].
    assert (In e (filterByCodec format formats)) as Hin by (rewrite E; now left).
    apply filterByCodec_elements in Hin as [Hin M].
    rewrite (H e Hin) in M. discriminate.
Qed.

(** ** The playability gate and the stream selector *)

Section ServiceProperties.

Variable StringToNumber : string -> jsnum.
Variable cleanString : string -> string.
Variable durationLimit : Z.

Local Abbreviation select_streams' := (select_streams StringToNumber cleanString).
Local Abbreviation process' := (process StringToNumber cleanString durationLimit).

Lemma resolve_formats_h264 (formats : list Format) :
  resolve_formats h264 formats = (h264, filterByCodec h264 formats).
Proof. unfold resolve_formats. simpl. now rewrite andb_false_r. Qed.

Lemma resolve_formats_retry (f : Codec) (formats : list Format) :
  is_vp9_or_av1 f = true -> filterByCodec f formats = [] ->
  resolve_formats f formats = (h264, filterByCodec h264 formats).
Proof. intros Hf E. unfold resolve_formats. now rewrite E, Hf. Qed.

Lemma resolve_formats_keep (f : Codec) (formats : list Format) :
  filterByCodec f formats <> [] ->
  resolve_formats f formats = (f, filterByCodec f formats).
Proof.
  intros Hne. unfold resolve_formats.
  destruct (filterByCodec f formats); [congruence|reflexivity].
Qed.

(** The selection reads the format of the request through
    [resolve_formats] only. *)
Lemma select_streams_format (o : Request) (info : VideoInfo) (g : FormatField) :
  resolve_formats (requested_format o) (adaptive_formats info)
  = resolve_formats (requested_format (with_format o g)) (adaptive_formats info) ->
  select_streams' o info = select_streams' (with_format o g) info.
Proof.
  intros E. unfold select_streams. rewrite <- E. reflexivity.
Qed.

Lemma process_format (o : Request) (info : VideoInfo) (g : FormatField) :
  select_streams' o info = select_streams' (with_format o g) info ->
  process' o info = process' (with_format o g) info.
Proof.
  intros E. unfold process. rewrite <- E. reflexivity.
Qed.

(** The answer of the selection, read off the searches in the list
    [resolve_formats] settles on. *)
Lemma select_streams_cases (o : Request) (info : VideoInfo) (f : Codec) (fs : list Format) :
  resolve_formats (requested_format o) (adaptive_formats info) = (f, fs) ->
  let fm := file_metadata cleanString (basic_info info) in
  ((bestVideo fs = None /\ isAudioOnly o = false)
   \/ (hasAudio fs = None /\ isAudioOnly o = true) ->
   select_streams' o info = Return (error_ "fetch.empty"))
  /\ (forall a d,
        isAudioOnly o = true -> hasAudio fs <> None ->
        select_audio (dubLang o) fs = (Some a, d) ->
        select_streams' o info
        = Return (RAudio (url a) (startTime o) (endTime o)
                    {| service := "youtube"; fa_id := o_id o; fa_title := fm_title fm;
                       fa_author := artist fm;
                       youtubeDubName := if d then dubLang o else None;
                       qualityLabel := None; resolution := None;
                       extension := None; youtubeFormat := None |}
                    fm (match f with h264 => "m4a" | _ => "opus" end)))
  /\ (forall bv v a d,
        isAudioOnly o = false -> bestVideo fs = Some bv ->
        merge_video StringToNumber o bv fs = Some v ->
        select_audio (dubLang o) fs = (Some a, d) ->
        select_streams' o info
        = Return (RMerge (url v, url a) (startTime o) (endTime o) (watermark o)
                    {| service := "youtube"; fa_id := o_id o; fa_title := fm_title fm;
                       fa_author := artist fm;
                       youtubeDubName := if d then dubLang o else None;
                       qualityLabel := quality_label v;
                       resolution := Some (resolution_of v);
                       extension := Some (container (codecList f));
                       youtubeFormat := Some (codec_name f) |}
                    fm))
  /\ (forall bv,
        bestVideo fs = Some bv ->
        (isAudioOnly o = true ->
         hasAudio fs <> None /\ fst (select_audio (dubLang o) fs) = None) ->
        merge_video StringToNumber o bv fs = None
        \/ fst (select_audio (dubLang o) fs) = None ->
        select_streams' o info = Return (error_ "fetch.fail")).
Proof.
  intros R fm. unfold select_streams. rewrite R. fold fm.
  split; [|split; [|split]].
  - intros [[-> ->] | [-> ->]]; simpl; [reflexivity|].
    now rewrite orb_true_r.
  - intros a d A H S. rewrite A, S.
    destruct (hasAudio fs); [|congruence]. simpl.
    rewrite andb_false_r. reflexivity.
  - intros bv v a d A B V S. rewrite A, B, V, S. simpl.
    rewrite andb_false_r. reflexivity.
  - intros bv B Ha Hn. rewrite B. simpl.
    destruct (select_audio (dubLang o) fs) as [audio d]. simpl in Ha, Hn.
    destruct (isAudioOnly o).
    + destruct (Ha eq_refl) as [H ->].
      destruct (hasAudio fs); [|congruence]. simpl.
      destruct (merge_video StringToNumber o bv fs); reflexivity.
    + rewrite andb_false_r. simpl.
      destruct Hn as [-> | ->]; [destruct audio; reflexivity|].
      destruct (merge_video StringToNumber o bv fs); reflexivity.
Qed.

(** C2: when the requested family is vp9 or av1 and filtering by it leaves
    no variant, [format] becomes h264 and the list filtered by the avc1 and
    mp4a tags takes the place of [adaptive_formats]; with h264 there is no
    further retry. Every later search reads that list: the candidates of
    the fetch.empty test, the audio, the best video and the video of the
    plan are found in it, and the plan is the h264 one, with extension mp4
    and container m4a. The whole answer is the one the same request gets
    with format h264. *)
Theorem codec_fallback_retries_h264 (o : Request) (info : VideoInfo) (f : Codec) :
  format o = FormatKey f ->
  f = vp9 \/ f = av1 ->
  filterByCodec f (adaptive_formats info) = [] ->
  let fs :=
    sort_by_bitrate
      (List.filter (fun e => JS.includes (mime_type e) "avc1"
                             || JS.includes (mime_type e) "mp4a")
                   (adaptive_formats info)) in
  let fm := file_metadata cleanString (basic_info info) in
  resolve_formats f (adaptive_formats info) = (h264, fs)
  /\ resolve_formats h264 (adaptive_formats info) = (h264, fs)
  /\ select_streams' o info = select_streams' (with_format o (FormatKey h264)) info
  /\ process' o info = process' (with_format o (FormatKey h264)) info
  /\ ((bestVideo fs = None /\ isAudioOnly o = false)
      \/ (hasAudio fs = None /\ isAudioOnly o = true) ->
      select_streams' o info = Return (error_ "fetch.empty"))
  /\ (forall a d,
        isAudioOnly o = true -> hasAudio fs <> None ->
        select_audio (dubLang o) fs = (Some a, d) ->
        select_streams' o info
        = Return (RAudio (url a) (startTime o) (endTime o)
                    {| service := "youtube"; fa_id := o_id o; fa_title := fm_title fm;
                       fa_author := artist fm;
                       youtubeDubName := if d then dubLang o else None;
                       qualityLabel := None; resolution := None;
                       extension := None; youtubeFormat := None |}
                    fm "m4a"))
  /\ (forall bv v a d,
        isAudioOnly o = false -> bestVideo fs = Some bv ->
        merge_video StringToNumber o bv fs = Some v ->
        select_audio (dubLang o) fs = (Some a, d) ->
        select_streams' o info
        = Return (RMerge (url v, url a) (startTime o) (endTime o) (watermark o)
                    {| service := "youtube"; fa_id := o_id o; fa_title := fm_title fm;
                       fa_author := artist fm;
                       youtubeDubName := if d then dubLang o else None;
                       qualityLabel := quality_label v;
                       resolution := Some (resolution_of v);
                       extension := Some "mp4";
                       youtubeFormat := Some "h264" |}
                    fm))
  /\ (forall bv,
        bestVideo fs = Some bv ->
        (isAudioOnly o = true ->
         hasAudio fs <> None /\ fst (select_audio (dubLang o) fs) = None) ->
        merge_video StringToNumber o bv fs = None
        \/ fst (select_audio (dubLang o) fs) = None ->
        select_streams' o info = Return (error_ "fetch.fail")).
Proof.
  intros Ef Hf E fs fm.
  assert (is_vp9_or_av1 f = true) as Hv by (destruct Hf as [-> | ->]; reflexivity).
  assert (resolve_formats (requested_format o) (adaptive_formats info) = (h264, fs)) as R.
  { unfold requested_format. rewrite Ef. now apply resolve_formats_retry. }
  assert (select_streams' o info
          = select_streams' (with_format o (FormatKey h264)) info) as Hs.
  { apply select_streams_format. rewrite R. simpl requested_format.
    now rewrite resolve_formats_h264. }
  destruct (select_streams_cases o info h264 fs R) as (C1 & C2 & C3 & C4).
  split; [now apply resolve_formats_retry|].
  split; [apply resolve_formats_h264|].
  split; [exact Hs|].
  split; [now apply process_format|].
  split; [exact C1|]. split; [exact C2|]. split; [exact C3|exact C4].
Qed.

(** What a plan says about the family that was selected. *)
Lemma select_streams_plan_format (o : Request) (info : VideoInfo) :
  let f := fst (resolve_formats (requested_format o) (adaptive_formats info)) in
  (forall urls st en wm fa fm,
      select_streams' o info = Return (RMerge urls st en wm fa fm) ->
      extension fa = Some (container (codecList f))
      /\ youtubeFormat fa = Some (codec_name f))
  /\ (forall urls st en fa fm best,
      select_streams' o info = Return (RAudio urls st en fa fm best) ->
      best = match f with h264 => "m4a" | _ => "opus" end).
Proof.
  unfold select_streams.
  destruct (resolve_formats (requested_format o) (adaptive_formats info)) as [f fs].
  simpl fst.
  destruct (select_audio (dubLang o) fs) as [audio isDubbed].
  split; intros *;
    destruct (_ || _); try discriminate;
    destruct audio as [a|], (isAudioOnly o); try discriminate;
    try (intros [= <- <- <- <- <- <-]; reflexivity);
    destruct (bestVideo fs) as [bv|]; try discriminate;
    destruct (merge_video StringToNumber o bv fs); try discriminate;
    try (intros [= <- <- <- <- <- <-]; split; reflexivity).
Qed.

Lemma playability_switch_error (p : Playability) (r : Response) :
  playability_switch p = Return (Some r) -> is_plan r = false.
Proof.
  unfold playability_switch.
  repeat match goal with
         | |- context [if ?b then _ else _] => destruct b
         | |- context [match reason p with _ => _ end] => destruct (reason p)
         end;
    try discriminate; intros [= <-]; reflexivity.
Qed.

(** A plan comes out of [process] only past every check of the gate. *)
Lemma process_plan (o : Request) (info : VideoInfo) (r : Response) :
  process' o info = Return r -> is_plan r = true ->
  status (playability_status info) = "OK"
  /\ is_live (basic_info info) = false
  /\ exceeds (duration (basic_info info)) durationLimit = false
  /\ info_id (basic_info info) = Some (o_id o)
  /\ select_streams' o info = Return r.
Proof.
  unfold process. intros H Hr.
  destruct (playability_switch (playability_status info)) as [[r'|]|] eqn:G;
    try discriminate.
  - injection H as <-. apply playability_switch_error in G. congruence.
  - destruct (String.eqb (status (playability_status info)) "OK") eqn:S; simpl in H;
      [|injection H as <-; discriminate].
    destruct (is_live (basic_info info)); [injection H as <-; discriminate|].
    destruct (exceeds (duration (basic_info info)) durationLimit);
      [injection H as <-; discriminate|].
    destruct (strict_ne (info_id (basic_info info)) (o_id o)) eqn:N;
      [injection H as <-; discriminate|].
    apply String.eqb_eq in S. repeat split; auto.
    unfold strict_ne, str_is in N.
    destruct (info_id (basic_info info)) as [x|]; [|discriminate].
    apply negb_false_iff, String.eqb_eq in N. now subst.
Qed.

(** C10: a request without a format is served with the h264 family: the
    variants kept are those whose mime type has the avc1 or the mp4a tag, a
    merged plan has extension mp4 and an audio plan the container m4a. *)
Theorem absent_format_is_h264 (o : Request) (info : VideoInfo) :
  format o = FormatAbsent \/ format o = FormatEmpty ->
  requested_format o = h264
  /\ resolve_formats (requested_format o) (adaptive_formats info)
     = (h264,
        sort_by_bitrate
          (List.filter (fun e => JS.includes (mime_type e) "avc1"
                                 || JS.includes (mime_type e) "mp4a")
                       (adaptive_formats info)))
  /\ process' o info = process' (with_format o (FormatKey h264)) info
  /\ (forall urls st en wm fa fm,
        process' o info = Return (RMerge urls st en wm fa fm) ->
        extension fa = Some "mp4" /\ youtubeFormat fa = Some "h264")
  /\ (forall urls st en fa fm best,
        process' o info = Return (RAudio urls st en fa fm best) -> best = "m4a").
Proof.
  intros Hf.
  assert (requested_format o = h264) as Rf
    by (unfold requested_format; destruct Hf as [-> | ->]; reflexivity).
  pose proof (select_streams_plan_format o info) as [Hm Ha].
  rewrite Rf, resolve_formats_h264 in Hm, Ha. simpl in Hm, Ha.
  repeat split.
  - exact Rf.
  - rewrite Rf. apply resolve_formats_h264.
  - apply process_format, select_streams_format. now rewrite Rf.
  - apply process_plan in H as (_ & _ & _ & _ & H); [|reflexivity].
    now apply Hm in H.
  - apply process_plan in H as (_ & _ & _ & _ & H); [|reflexivity].
    now apply Hm in H.
  - intros urls st en fa fm best H.
    apply process_plan in H as (_ & _ & _ & _ & H); [|reflexivity].
    now apply Ha in H.
Qed.

(** C4: past the gate, an info whose id is not the requested one is
    answered with the critical fetch.fail, and no plan is ever returned for
    such an info. *)
Theorem id_mismatch_is_critical (o : Request) (info : VideoInfo) :
  info_id (basic_info info) <> Some (o_id o) ->
  (status (playability_status info) = "OK" ->
   is_live (basic_info info) = false ->
   exceeds (duration (basic_info info)) durationLimit = false ->
   process' o info = Return (RError "fetch.fail" true))
  /\ (forall r, process' o info = Return r -> is_plan r = false).
Proof.
  intros Hid. split.
  - intros S L D. unfold process, playability_switch. rewrite S, L, D. simpl.
    unfold strict_ne, str_is.
    destruct (info_id (basic_info info)) as [x|]; [|reflexivity].
    destruct (String.eqb x (o_id o)) eqn:E; [|reflexivity].
    apply String.eqb_eq in E. congruence.
  - intros r H. destruct (is_plan r) eqn:P; [|reflexivity].
    apply process_plan in H as (_ & _ & _ & Hi & _); [congruence|assumption].
Qed.

(** C8: an info with status LOGIN_REQUIRED and no reason makes the gate
    throw: [endsWith] is called on the missing reason. *)
Theorem login_required_without_reason_throws (o : Request) :
  process' o login_without_reason
  = Throw (TypeError "Cannot read properties of undefined (reading 'endsWith')").
Proof. reflexivity. Qed.

(** With a reason that is there, the LOGIN_REQUIRED case falls through to
    the check of the status. *)
Lemma login_required_falls_through (o : Request) (info : VideoInfo) (r : string) :
  status (playability_status info) = "LOGIN_REQUIRED" ->
  reason (playability_status info) = Some r ->
  JS.endsWith r "bot" = false ->
  JS.endsWith r "age" = false ->
  error_reason_text (playability_status info) <> Some "Private video" ->
  process' o info = Return (error_ "content.video.unavailable").
Proof.
  intros S R B A P. unfold process, playability_switch. rewrite S, R, B, A. simpl.
  destruct (str_is _ _) eqn:E; [|reflexivity].
  unfold str_is in E. destruct (error_reason_text _) as [x|]; [|discriminate].
  apply String.eqb_eq in E. congruence.
Qed.

(** The guarded sibling: UNPLAYABLE without a reason does not throw. *)
Lemma unplayable_without_reason (o : Request) (info : VideoInfo) :
  status (playability_status info) = "UNPLAYABLE" ->
  reason (playability_status info) = None ->
  error_screen (playability_status info) = None ->
  process' o info = Return (error_ "content.video.unavailable").
Proof.
  intros S R E. unfold process, playability_switch, error_subreason_text, error_reason_text.
  rewrite S, R, E. reflexivity.
Qed.

(** *** Audio *)

Lemma select_audio_override (dub : option string) (fs : list Format) (d : Format) :
  dub_override dub fs d -> select_audio dub fs = (Some d, true).
Proof.
  intros (lang & -> & Hne & Hd & Hdef). unfold select_audio.
  destruct lang as [|c lang]; [congruence|].
  rewrite Hd, Hdef. reflexivity.
Qed.

Lemma select_audio_plain (dub : option string) (fs : list Format) :
  (forall d, ~ dub_override dub fs d) ->
  select_audio dub fs
  = (match List.find (fun i => checkBestAudio i && is_original i) fs with
     | Some a => Some a
     | None => List.find checkBestAudio fs
     end, false).
Proof.
  intros Hno. unfold select_audio.
  destruct dub as [[|c lang]|]; try (destruct (List.find _ fs); reflexivity).
  destruct (dubbedAudio (String c lang) fs) as [d|] eqn:Hd;
    [|destruct (List.find _ fs); reflexivity].
  destruct (track_is_default d) eqn:Hdef; simpl;
    [destruct (List.find _ fs); reflexivity|].
  exfalso. apply (Hno d). exists (String c lang).
  split; [reflexivity|]. split; [discriminate|]. split; assumption.
Qed.

Lemma select_audio_dubbed (dub : option string) (fs : list Format) :
  snd (select_audio dub fs) = true <-> exists d, dub_override dub fs d.
Proof.
  split.
  - destruct dub as [[|c lang]|].
    + unfold select_audio. destruct (List.find _ fs); discriminate.
    + destruct (dubbedAudio (String c lang) fs) as [d|] eqn:Hd.
      * destruct (track_is_default d) eqn:Hdef.
        -- unfold select_audio. rewrite Hd, Hdef. simpl.
           destruct (List.find _ fs); discriminate.
        -- intros _. exists d, (String c lang).
           split; [reflexivity|]. split; [discriminate|]. split; assumption.
      * unfold select_audio. rewrite Hd. destruct (List.find _ fs); discriminate.
    + unfold select_audio. destruct (List.find _ fs); discriminate.
  - intros [d H]. now rewrite (select_audio_override _ _ _ H).
Qed.

(** The audio and the dub name of a plan are those of [select_audio]. *)
Lemma select_streams_plan_audio (o : Request) (info : VideoInfo) (r : Response) :
  let fs := snd (resolve_formats (requested_format o) (adaptive_formats info)) in
  select_streams' o info = Return r -> is_plan r = true ->
  exists a fa,
    fst (select_audio (dubLang o) fs) = Some a
    /\ response_audio_url r = Some (url a)
    /\ response_attributes r = Some fa
    /\ youtubeDubName fa = if snd (select_audio (dubLang o) fs) then dubLang o else None.
Proof.
  unfold select_streams.
  destruct (resolve_formats (requested_format o) (adaptive_formats info)) as [f fs].
  simpl snd.
  destruct (select_audio (dubLang o) fs) as [audio isDubbed]. simpl fst; simpl snd.
  destruct (_ || _); [intros [= <-]; discriminate|].
  destruct audio as [a|], (isAudioOnly o);
    try (intros [= <-] _; eexists _, _; repeat split; reflexivity);
    (destruct (bestVideo fs) as [bv|]; [|discriminate]);
    (destruct (merge_video StringToNumber o bv fs);
     intros [= <-]; try discriminate);
    intros _; eexists _, _; repeat split; reflexivity.
Qed.

(** C3, amended: the audio is the track the search for the dub language
    finds first, when that track is not a default track, and the result is
    then marked as dubbed; in every other case it is the first original
    audio-only track, or failing that the first audio-only track, and the
    result is not marked. The dub name of a plan is the requested language
    exactly when the override has fired. *)
Theorem audio_precedence (o : Request) (info : VideoInfo) :
  let fs := snd (resolve_formats (requested_format o) (adaptive_formats info)) in
  let plain :=
    match List.find (fun i => checkBestAudio i && is_original i) fs with
    | Some a => Some a
    | None => List.find checkBestAudio fs
    end in
  (forall d, dub_override (dubLang o) fs d ->
             select_audio (dubLang o) fs = (Some d, true))
  /\ (forall lang d,
        dubbedAudio lang fs = Some d <->
        first_such (fun i => checkBestAudio i && str_is (language i) lang
                             && match audio_track i with Some _ => true | None => false end)
                   fs d)
  /\ ((forall d, ~ dub_override (dubLang o) fs d) ->
      select_audio (dubLang o) fs = (plain, false))
  /\ (forall lang d,
        dubLang o = Some lang -> dubbedAudio lang fs = Some d ->
        track_is_default d = true ->
        select_audio (dubLang o) fs = (plain, false))
  /\ (forall r, select_streams' o info = Return r -> is_plan r = true ->
        exists a fa,
          fst (select_audio (dubLang o) fs) = Some a
          /\ response_audio_url r = Some (url a)
          /\ response_attributes r = Some fa
          /\ (forall lang, youtubeDubName fa = Some lang <->
                           dubLang o = Some lang /\ exists d, dub_override (dubLang o) fs d)).
Proof.
  intros fs plain. repeat split.
  - apply select_audio_override.
  - apply find_first_such.
  - apply find_first_such.
  - apply select_audio_plain.
  - intros lang d Hl Hd Hdef. apply select_audio_plain.
    intros d' (lang' & E & _ & Hd' & Hdef'). rewrite Hl in E. injection E as <-.
    congruence.
  - intros r Hr Hp.
    destruct (select_streams_plan_audio o info r Hr Hp) as (a & fa & Ha & Hu & Hfa & Hdub).
    exists a, fa. split; [exact Ha|]. split; [exact Hu|]. split; [exact Hfa|].
    intros lang. rewrite Hdub. fold fs.
    destruct (snd (select_audio (dubLang o) fs)) eqn:S.
    + split.
      * intros E. split; [exact E|]. now apply select_audio_dubbed.
      * intros [E _]. exact E.
    + split; [discriminate|].
      intros [_ Hd]. apply select_audio_dubbed in Hd. congruence.
Qed.

(** *** Video *)

Lemma matchingQuality_decimal (q bq : string) (x b : Z) :
  reads_decimals StringToNumber ->
  decimal_value q = Some x -> decimal_value bq = Some b ->
  (x <= 2 ^ 53)%Z -> (b <= 2 ^ 53)%Z ->
  matchingQuality StringToNumber q (Some bq) = Some (if (b <? x)%Z then bq else q).
Proof.
  intros H Hq Hb Hx Hb'. unfold matchingQuality, Number.
  rewrite (H q x Hq Hx), (H bq b Hb Hb'). simpl num_gt.
  rewrite Qle_bool_inject_Z, <- Z.ltb_antisym.
  destruct (b <? x)%Z; reflexivity.
Qed.

Lemma matchingQuality_undefined (q : string) :
  matchingQuality StringToNumber q None = Some q.
Proof. unfold matchingQuality. simpl Number at 2. now rewrite num_gt_NaN_r. Qed.

Lemma requested_quality_max (o : Request) :
  quality o = "max" -> requested_quality o = "9000".
Proof. intros E. unfold requested_quality. now rewrite E. Qed.

Lemma requested_quality_other (o : Request) :
  quality o <> "max" -> requested_quality o = quality o.
Proof.
  intros E. unfold requested_quality.
  destruct (String.eqb (quality o) "max") eqn:Q; [|reflexivity].
  apply String.eqb_eq in Q. congruence.
Qed.

Lemma bitrate_ge_trans : Relations_1.Transitive bitrate_ge.
Proof. intros a b c. unfold bitrate_ge. lia. Qed.

(** In a list in descending order of bitrate, the first element with a
    property has the highest bitrate of the elements with that property. *)
Lemma first_of_sorted_is_highest (P : Format -> bool) (l : list Format) (x : Format) :
  Sorted bitrate_ge l -> List.find P l = Some x ->
  forall y, In y l -> P y = true -> (bitrate y <= bitrate x)%Z.
Proof.
  intros Hs Hf y Hy Py.
  apply Sorted_StronglySorted in Hs; [|exact bitrate_ge_trans].
  induction Hs as [|a l Hl IH Ha]; [destruct Hy|].
  simpl in Hf. destruct (P a) eqn:Pa.
  - injection Hf as <-. destruct Hy as [<- | Hy]; [lia|].
    rewrite List.Forall_forall in Ha. apply (Ha y Hy).
  - destruct Hy as [<- | Hy]; [congruence|]. now apply IH.
Qed.

Lemma resolve_formats_sorted (f : Codec) (formats : list Format) :
  Sorted bitrate_ge (snd (resolve_formats f formats)).
Proof.
  unfold resolve_formats.
  destruct (_ && _); simpl; apply sort_by_bitrate_sorted.
Qed.

(** The video of a merged plan is the one [merge_video] finds. *)
Lemma select_streams_plan_video (o : Request) (info : VideoInfo)
    (urls : string * string) (st en wm : jsval) (fa : FilenameAttributes) (fm : FileMetadata) :
  let fs := snd (resolve_formats (requested_format o) (adaptive_formats info)) in
  select_streams' o info = Return (RMerge urls st en wm fa fm) ->
  exists bv v,
    bestVideo fs = Some bv
    /\ merge_video StringToNumber o bv fs = Some v
    /\ fst urls = url v
    /\ qualityLabel fa = quality_label v.
Proof.
  unfold select_streams.
  destruct (resolve_formats (requested_format o) (adaptive_formats info)) as [f fs].
  simpl snd.
  destruct (select_audio (dubLang o) fs) as [audio isDubbed].
  destruct (_ || _); [discriminate|].
  destruct audio as [a|], (isAudioOnly o); try discriminate;
    (destruct (bestVideo fs) as [bv|]; [|discriminate]);
    (destruct (merge_video StringToNumber o bv fs) as [v|] eqn:V; [|discriminate]);
    try discriminate;
    intros [= <- <- <- <- <- <-]; exists bv, v; repeat split; assumption.
Qed.

(** C1, amended: the parsed quality of a variant is the part of its label
    before the first 'p' or 's'; "max" is requested as 9000; a requested
    number above the parsed quality of the best video (the first variant in
    descending order of bitrate with video and a content length that is not
    zero) is replaced by that quality; the video of the plan is the first
    variant of that parsed quality with video and without audio. With "max"
    it is the first video-only variant whose parsed quality is that of the
    best video, when that quality is a number below 9000. *)
Theorem quality_clamp (o : Request) (info : VideoInfo) (bv : Format) :
  let fs := snd (resolve_formats (requested_format o) (adaptive_formats info)) in
  let video_only q := fun i => strict_eq (qual i) q && has_video i && negb (has_audio i) in
  reads_decimals StringToNumber ->
  bestVideo fs = Some bv ->
  (forall y, In y fs -> has_video y && truthy_num (content_length y) = true ->
             (bitrate y <= bitrate bv)%Z)
  /\ (forall i label, quality_label i = Some label -> label <> EmptyString ->
                      qual i = Some (prefix_before_p_or_s label))
  /\ (quality o = "max" -> requested_quality o = "9000")
  /\ (quality o <> "max" -> requested_quality o = quality o)
  /\ (forall bq x b,
        qual bv = Some bq ->
        decimal_value (requested_quality o) = Some x -> decimal_value bq = Some b ->
        (x <= 2 ^ 53)%Z -> (b <= 2 ^ 53)%Z ->
        matchingQuality StringToNumber (requested_quality o) (qual bv)
        = Some (if (b <? x)%Z then bq else requested_quality o))
  /\ (forall v,
        merge_video StringToNumber o bv fs = Some v <->
        first_such
          (video_only (matchingQuality StringToNumber (requested_quality o) (qual bv)))
          fs v)
  /\ (forall bq b v,
        quality o = "max" -> qual bv = Some bq -> decimal_value bq = Some b ->
        (b < 9000)%Z ->
        (merge_video StringToNumber o bv fs = Some v <->
         first_such (video_only (Some bq)) fs v))
  /\ (forall urls st en wm fa fm,
        select_streams' o info = Return (RMerge urls st en wm fa fm) ->
        exists v, merge_video StringToNumber o bv fs = Some v
                  /\ fst urls = url v /\ qualityLabel fa = quality_label v).
Proof.
  intros fs video_only Hnum Hbv.
  assert (forall bq b, quality o = "max" -> qual bv = Some bq ->
                       decimal_value bq = Some b -> (b < 9000)%Z ->
                       merge_video StringToNumber o bv fs
                       = List.find (video_only (Some bq)) fs) as Hmax.
  { intros bq b Hq Hb Hd Hlt. unfold merge_video, select_video.
    rewrite (requested_quality_max o Hq), Hb.
    rewrite (matchingQuality_decimal "9000" bq 9000 b Hnum eq_refl Hd); [|lia|lia].
    apply Z.ltb_lt in Hlt. now rewrite Hlt. }
  split; [|split; [|split; [|split; [|split; [|split; [|split]]]]]].
  - intros y Hy Py.
    apply (first_of_sorted_is_highest
             (fun i => has_video i && truthy_num (content_length i)) fs bv);
      [apply resolve_formats_sorted | exact Hbv | exact Hy | exact Py].
  - apply qual_prefix.
  - apply requested_quality_max.
  - apply requested_quality_other.
  - intros bq x b Hq Hx Hb Bx Bb. rewrite Hq.
    now apply matchingQuality_decimal.
  - intros v. apply find_first_such.
  - intros bq b v Hq Hb Hd Hlt. rewrite (Hmax bq b Hq Hb Hd Hlt).
    apply find_first_such.
  - intros urls st en wm fa fm Hr.
    destruct (select_streams_plan_video o info urls st en wm fa fm Hr)
      as (bv' & v & Hb' & Hv & Hu & Hq).
    fold fs in Hb', Hv. rewrite Hbv in Hb'. injection Hb' as <-.
    exists v. repeat split; assumption.
Qed.

(** *** Metadata *)

(** The metadata is extended for a description after the template only, and
    then from the third, fourth and fifth paragraph. *)
Lemma file_metadata_shape (bi : BasicInfo) :
  let fm := file_metadata cleanString bi in
  fm_title fm = cleanString (JS.trim (title bi))
  /\ artist fm = cleanString (JS.trim (JS.remove_first (author bi) "- Topic"))
  /\ ((exists desc,
         short_description bi = Some desc
         /\ JS.startsWith desc "Provided to YouTube by" = true
         /\ List.length (JS.split desc (LF +:+ LF) 5) = 5%nat
         /\ album fm = Some (nth 2 (JS.split desc (LF +:+ LF) 5) EmptyString)
         /\ copyright fm = Some (nth 3 (JS.split desc (LF +:+ LF) 5) EmptyString)
         /\ date fm =
            let last := nth 4 (JS.split desc (LF +:+ LF) 5) EmptyString in
            if JS.startsWith last "Released on:"
            then Some (JS.trim (JS.remove_first last "Released on: "))
            else None)
      \/ (album fm = None /\ copyright fm = None /\ date fm = None
          /\ match short_description bi with
             | Some desc =>
                 JS.startsWith desc "Provided to YouTube by" = false
                 \/ List.length (JS.split desc (LF +:+ LF) 5) <> 5%nat
             | None => True
             end)).
Proof.
  unfold file_metadata.
  destruct (short_description bi) as [desc|]; [|simpl; auto 10].
  destruct (JS.startsWith desc "Provided to YouTube by") eqn:P; [|simpl; auto 10].
  destruct (Nat.eqb (List.length (JS.split desc (LF +:+ LF) 5)) 5) eqn:L.
  - apply Nat.eqb_eq in L. cbn [fm_title artist album copyright date].
    split; [reflexivity|]. split; [reflexivity|]. left. exists desc. auto 10.
  - apply Nat.eqb_neq in L. simpl. auto 10.
Qed.

(** When the last paragraph has the space after the colon, what is left of
    it is what follows "Released on: ". *)
Lemma released_on_with_space (last : string) :
  JS.startsWith last "Released on: " = true ->
  JS.remove_first last "Released on: " = JS.drop 13 last.
Proof.
  intros H. destruct last as [|c last]; [discriminate|].
  unfold JS.remove_first. now rewrite H.
Qed.

(** C9: for a description after the template whose last paragraph is
    "Released on:2020-01-01", the date keeps the prefix: the paragraph is
    tested for "Released on:" and what is removed is "Released on: ". *)
Theorem released_prefix_not_stripped :
  file_metadata cleanString released_info
  = {| fm_title := cleanString "Song"; artist := cleanString "Artist";
       album := Some "Album"; copyright := Some "2020 Label";
       date := Some "Released on:2020-01-01" |}.
Proof. reflexivity. Qed.

End ServiceProperties.

(** ** The selector on the sample catalogues *)

Lemma codec_fallback_witness :
  filterByCodec av1 e2e_formats = []
  /\ select_streams decimalNumber (fun s => s)
       (sample_request "abc" (FormatKey av1) "720" (Some "es") false) e2e_info
     = Return (RMerge ("link2", "dub") VUndefined VUndefined VUndefined
         {| service := "youtube"; fa_id := "abc"; fa_title := "A title";
            fa_author := "Artist"; youtubeDubName := Some "es";
            qualityLabel := Some "720p"; resolution := Some "1280x720";
            extension := Some "mp4"; youtubeFormat := Some "h264" |}
         {| fm_title := "A title"; artist := "Artist"; album := None;
            copyright := None; date := None |}).
Proof.
  split; [reflexivity|].
  destruct (codec_fallback_retries_h264 decimalNumber (fun s => s) 10800
              (sample_request "abc" (FormatKey av1) "720" (Some "es") false)
              e2e_info av1 eq_refl (or_intror eq_refl) eq_refl)
    as (_ & _ & _ & _ & _ & _ & M & _).
  exact (M (video_format "video/mp4; codecs=avc1.640028" "1080p" "link3" 4000000 1920 1080)
           (video_format "video/mp4; codecs=avc1.4d401f" "720p" "link2" 1500000 1280 720)
           (audio_format "audio/mp4; codecs=mp4a.40.2" "dub" 160000 (Some "es") false
                         (Some {| audio_is_default := false |}))
           true eq_refl eq_refl eq_refl eq_refl).
Defined.

Lemma absent_format_witness :
  format (sample_request "abc" FormatAbsent "720" None false) = FormatAbsent
  /\ requested_format (sample_request "abc" FormatAbsent "720" None false) = h264
  /\ process decimalNumber (fun s => s) 10800
       (sample_request "abc" FormatAbsent "720" None false) e2e_info
     = process decimalNumber (fun s => s) 10800
         (sample_request "abc" (FormatKey h264) "720" None false) e2e_info.
Proof.
  split; [reflexivity|].
  destruct (absent_format_is_h264 decimalNumber (fun s => s) 10800
              (sample_request "abc" FormatAbsent "720" None false) e2e_info
              (or_introl eq_refl))
    as (A & _ & B & _).
  split; [exact A|exact B].
Defined.

Lemma id_mismatch_witness :
  info_id (basic_info e2e_info) <> Some "xyz"
  /\ process decimalNumber (fun s => s) 10800
       (sample_request "xyz" FormatAbsent "720" None false) e2e_info
     = Return (RError "fetch.fail" true).
Proof.
  split; [discriminate|].
  apply (id_mismatch_is_critical decimalNumber (fun s => s) 10800
           (sample_request "xyz" FormatAbsent "720" None false) e2e_info);
    [discriminate | reflexivity | reflexivity | reflexivity].
Defined.

Lemma audio_precedence_witness :
  select_audio (Some "es") (filterByCodec h264 e2e_formats)
  = (Some (audio_format "audio/mp4; codecs=mp4a.40.2" "dub" 160000 (Some "es") false
                        (Some {| audio_is_default := false |})), true).
Proof.
  apply (audio_precedence decimalNumber (fun s => s)
           (sample_request "abc" FormatAbsent "720" (Some "es") false) e2e_info).
  exists "es". split; [reflexivity|]. split; [discriminate|]. split; reflexivity.
Defined.

(** C3, as stated: a Spanish track with metadata that is not a default
    track is in the list, and the audio is the original track all the same,
    because the search stops at the Spanish track before it, which is a
    default track. *)
Lemma later_dub_track_is_ignored :
  let fs := filterByCodec h264 two_spanish_tracks in
  let info := {| playability_status := ok_playability;
                 basic_info := sample_basic "abc";
                 adaptive_formats := two_spanish_tracks |} in
  (exists d, In d fs /\ checkBestAudio d = true /\ language d = Some "es"
             /\ audio_track d = Some {| audio_is_default := false |})
  /\ select_audio (Some "es") fs
     = (Some (audio_format "audio/mp4; codecs=mp4a.40.2" "orig" 128000 (Some "en") true
                           (Some {| audio_is_default := false |})), false)
  /\ process decimalNumber (fun s => s) 10800
       (sample_request "abc" FormatAbsent "720" (Some "es") true) info
     = Return (RAudio "orig" VUndefined VUndefined
         {| service := "youtube"; fa_id := "abc"; fa_title := "A title";
            fa_author := "Artist"; youtubeDubName := None;
            qualityLabel := None; resolution := None;
            extension := None; youtubeFormat := None |}
         {| fm_title := "A title"; artist := "Artist"; album := None;
            copyright := None; date := None |}
         "m4a").
Proof.
  split; [|split; reflexivity].
  eexists. split; [right; left; reflexivity|]. repeat split.
Qed.

Lemma quality_clamp_witness :
  bestVideo (filterByCodec h264 (adaptive_formats max_info)) = Some v720
  /\ forall v,
       merge_video decimalNumber (sample_request "abc" FormatAbsent "max" None false) v720
                   (filterByCodec h264 (adaptive_formats max_info)) = Some v <->
       first_such (fun i => strict_eq (qual i) (Some "720") && has_video i
                            && negb (has_audio i))
                  (filterByCodec h264 (adaptive_formats max_info)) v.
Proof.
  split; [reflexivity|].
  intros v.
  apply (quality_clamp decimalNumber (fun s => s)
           (sample_request "abc" FormatAbsent "max" None false) max_info v720
           decimalNumber_reads_decimals eq_refl) with (b := 720%Z);
    [reflexivity | reflexivity | reflexivity | reflexivity].
Defined.

(** C1, as stated: with "max" the plan takes the 720p60 video, the one
    with the highest bitrate, while a video-only 1080p variant with a
    content length is in the same list. *)
Lemma max_misses_highest_label :
  process decimalNumber (fun s => s) 10800
          (sample_request "abc" FormatAbsent "max" None false) max_info
  = Return (RMerge ("link720", "orig") VUndefined VUndefined VUndefined
      {| service := "youtube"; fa_id := "abc"; fa_title := "A title";
         fa_author := "Artist"; youtubeDubName := None;
         qualityLabel := Some "720p60"; resolution := Some "1280x720";
         extension := Some "mp4"; youtubeFormat := Some "h264" |}
      {| fm_title := "A title"; artist := "Artist"; album := None;
         copyright := None; date := None |})
  /\ In v1080 (filterByCodec h264 (adaptive_formats max_info))
  /\ has_video v1080 = true /\ has_audio v1080 = false
  /\ truthy_num (content_length v1080) = true
  /\ qual v1080 = Some "1080" /\ qual v720 = Some "720".
Proof.
  split; [vm_compute; reflexivity|].
  split; [right; left; reflexivity|]. repeat split.
Qed.

(** ** The session manager *)

Section SessionProperties.

Context {opaque transport : Type}.
Variable DateTime : jsval -> option Z.
Variable toISOString : Z -> string.

Local Abbreviation cloneInnertube' := (@cloneInnertube opaque transport DateTime toISOString).
Local Abbreviation refresh_and_persist' :=
  (@refresh_and_persist opaque transport DateTime toISOString).

Lemma acquire_run (w : @World opaque transport) (customFetch : option transport) (st : State) :
  acquire w customFetch st
  = if negb (bool_decide (is_Some (innertube st)))
       || shouldRefreshPlayer (lastRefreshedAt st) (now_check w)
    then match Innertube_create w customFetch with
         | Return it =>
             (Return it,
              {| innertube := Some it; lastRefreshedAt := Some (now_stamp w);
                 youtube_oauth := youtube_oauth st |},
              [EvCreate])
         | Throw e => (Throw e, st, [EvCreate])
         end
    else match innertube st with
         | Some it => (Return it, st, [])
         | None =>
             (Throw (TypeError "Cannot read properties of undefined (reading 'session')"),
              st, [])
         end.
Proof.
  unfold acquire, rebuild, bind, get, call, set_innertube, set_lastRefreshedAt, ret, throw.
  destruct (_ || _).
  - destruct (Innertube_create w customFetch); reflexivity.
  - destruct (innertube st); reflexivity.
Qed.

Lemma cloneInnertube_run (w : @World opaque transport) (customFetch : option transport)
    (st : State) :
  cloneInnertube' w customFetch st
  = match acquire w customFetch st with
    | (Return it, st1, ev1) =>
        match login DateTime toISOString w (clone_session it customFetch) st1 with
        | (Return s, st2, ev2) => (Return {| session := s |}, st2, ev1 ++ ev2)
        | (Throw e, st2, ev2) => (Throw e, st2, ev1 ++ ev2)
        end
    | (Throw e, st1, ev1) => (Throw e, st1, ev1)
    end.
Proof.
  unfold cloneInnertube, bind, ret.
  destruct (acquire w customFetch st) as [[[it|e] st1] ev1]; [|reflexivity].
  destruct (login _ _ w _ st1) as [[[s1|e] st2] ev2];
    simpl; rewrite ?app_nil_r; reflexivity.
Qed.

(** The steps after [acquire] leave the client and its time stamp alone and
    do not call [Innertube.create]. *)
Lemma login_keeps_client (w : @World opaque transport) (session0 : Session)
    (st st' : State) (r : Completion Session) (evs : list Event) :
  login DateTime toISOString w session0 st = (r, st', evs) ->
  innertube st' = innertube st
  /\ lastRefreshedAt st' = lastRefreshedAt st
  /\ List.filter is_create evs = [].
Proof.
  unfold login, authenticate, refresh_and_persist, persist_expiry, bind, getCookie,
    call, ret, throw, updateCookieValues.
  repeat match goal with
         | |- context [match ?x with _ => _ end] =>
             lazymatch x with
             | context [match _ with _ => _ end] => fail
             | _ => destruct x eqn:?
             end
         | |- context [if ?x then _ else _] =>
             lazymatch x with
             | context [if _ then _ else _] => fail
             | _ => destruct x eqn:?
             end
         end;
    simpl; intros [= <- <- <-]; repeat split; reflexivity.
Qed.

(** *** The shared client *)

(** [due st now]: the test of line 53. *)
Lemma due_iff (st : @State opaque transport) (now : Z) :
  negb (bool_decide (is_Some (innertube st)))
  || shouldRefreshPlayer (lastRefreshedAt st) now = true
  <-> innertube st = None \/ stale st now.
Proof.
  unfold stale, shouldRefreshPlayer. split.
  - intros H. apply orb_true_iff in H as [H | H].
    + left. destruct (innertube st); [discriminate|reflexivity].
    + right. destruct (lastRefreshedAt st) as [t|]; [|discriminate].
      exists t. split; [reflexivity|]. apply Z.ltb_lt in H. lia.
  - intros [H | (t & H & Ht)]; apply orb_true_iff.
    + left. now rewrite H.
    + right. rewrite H. apply Z.ltb_lt. lia.
Qed.

Lemma in_create_filter (evs : list Event) :
  In EvCreate evs <-> List.filter is_create evs <> [].
Proof.
  split.
  - intros H E. assert (In EvCreate (List.filter is_create evs)) as H'
      by (apply filter_In; split; [assumption|reflexivity]).
    rewrite E in H'. destruct H'.
  - intros H. destruct (List.filter is_create evs) as [|e l] eqn:E; [congruence|].
    assert (In e (List.filter is_create evs)) as H' by (rewrite E; now left).
    apply filter_In in H' as [H1 H2]. destruct e; try discriminate. exact H1.
Qed.

(** One call: whether the client is made again, and what that leaves. *)
Lemma cloneInnertube_rebuild (w : @World opaque transport) (customFetch : option transport)
    (st st' : State) (r : Completion Innertube) (evs : list Event) :
  cloneInnertube' w customFetch st = (r, st', evs) ->
  let due := negb (bool_decide (is_Some (innertube st)))
             || shouldRefreshPlayer (lastRefreshedAt st) (now_check w) in
  List.filter is_create evs = (if due then [EvCreate] else [])
  /\ (due = true -> forall it, Innertube_create w customFetch = Return it ->
        innertube st' = Some it /\ lastRefreshedAt st' = Some (now_stamp w))
  /\ (due = false -> innertube st' = innertube st
                     /\ lastRefreshedAt st' = lastRefreshedAt st)
  /\ (forall yt, r = Return yt ->
        exists it, innertube st' = Some it
                   /\ (due = true -> Innertube_create w customFetch = Return it)).
Proof.
  intros H due. rewrite cloneInnertube_run, acquire_run in H. fold due in H.
  destruct due.
  - destruct (Innertube_create w customFetch) as [it|e] eqn:C.
    + destruct (login _ _ w _ _) as [[r2 st2] ev2] eqn:L.
      apply login_keeps_client in L as (L1 & L2 & L3). simpl in L1, L2.
      assert (st' = st2 /\ evs = [EvCreate] ++ ev2) as [-> ->]
        by (destruct r2; injection H as <- <- <-; auto).
      simpl. rewrite L3. repeat split; try congruence.
      intros yt _. exists it. auto.
    + injection H as <- <- <-. repeat split; try discriminate; try reflexivity.
  - destruct (innertube st) as [it|] eqn:I.
    + destruct (login _ _ w _ _) as [[r2 st2] ev2] eqn:L.
      apply login_keeps_client in L as (L1 & L2 & L3).
      assert (st' = st2 /\ evs = [] ++ ev2) as [-> ->]
        by (destruct r2; injection H as <- <- <-; auto).
      simpl. repeat split; try congruence.
      intros yt _. exists it. split; [congruence|discriminate].
    + injection H as <- <- <-. repeat split; try discriminate; auto.
Qed.

(** C6, amended: the client is made again exactly when there is none or
    when more than 15 minutes lie between [lastRefreshedAt] and the clock;
    making it again sets [lastRefreshedAt] to the clock as read after the
    client was made; and of two calls in a row within one refresh window,
    that is with the client there after the first call and the second call
    checking the clock no more than 15 minutes after [lastRefreshedAt] as
    the first call left it, the second does not make the client again and
    the two together make it at most once. *)
Theorem client_rebuild (w1 w2 : @World opaque transport) (f1 f2 : option transport)
    (st st1 st2 : State) (r1 r2 : Completion Innertube) (ev1 ev2 : list Event) :
  cloneInnertube' w1 f1 st = (r1, st1, ev1) ->
  cloneInnertube' w2 f2 st1 = (r2, st2, ev2) ->
  (In EvCreate ev1 <-> innertube st = None \/ stale st (now_check w1))
  /\ (forall it, In EvCreate ev1 -> Innertube_create w1 f1 = Return it ->
        innertube st1 = Some it /\ lastRefreshedAt st1 = Some (now_stamp w1))
  /\ (~ In EvCreate ev1 ->
        innertube st1 = innertube st /\ lastRefreshedAt st1 = lastRefreshedAt st)
  /\ (forall t,
        innertube st1 <> None -> lastRefreshedAt st1 = Some t ->
        (now_check w2 - t <= PLAYER_REFRESH_PERIOD)%Z ->
        ~ In EvCreate ev2 /\ (rebuilds (ev1 ++ ev2) <= 1)%nat).
Proof.
  intros H1 H2.
  destruct (cloneInnertube_rebuild _ _ _ _ _ _ H1) as (F1 & S1 & K1 & R1).
  destruct (cloneInnertube_rebuild _ _ _ _ _ _ H2) as (F2 & _ & _ & _).
  assert (forall t,
             innertube st1 <> None -> lastRefreshedAt st1 = Some t ->
             (now_check w2 - t <= PLAYER_REFRESH_PERIOD)%Z ->
             ~ In EvCreate ev2 /\ (rebuilds (ev1 ++ ev2) <= 1)%nat) as Window.
  { intros t I L Hw.
    assert (List.filter is_create ev2 = []) as N2.
    { rewrite F2, L. destruct (innertube st1); [|congruence].
      unfold shouldRefreshPlayer.
      destruct (t + PLAYER_REFRESH_PERIOD <? now_check w2)%Z eqn:E;
        [apply Z.ltb_lt in E; lia|reflexivity]. }
    split; [rewrite in_create_filter; congruence|].
    unfold rebuilds. rewrite List.filter_app, F1, N2, app_nil_r.
    destruct (negb (bool_decide (is_Some (innertube st))) || _); simpl; lia. }
  rewrite in_create_filter, F1, <- due_iff.
  destruct (negb (bool_decide (is_Some (innertube st)))
            || shouldRefreshPlayer (lastRefreshedAt st) (now_check w1)) eqn:D1.
  - split; [split; [reflexivity|discriminate]|].
    split; [intros it _ C; now apply S1|].
    split; [intros N; exfalso; apply N; discriminate|].
    exact Window.
  - split; [split; [congruence|discriminate]|].
    split; [intros it N; apply in_create_filter in N; congruence|].
    split; [intros _; now apply K1|].
    exact Window.
Qed.

(** *** Credentials *)

Lemma transformSessionData_incomplete (values : gmap string jsval) :
  incomplete values -> transformSessionData (Some values) = None.
Proof.
  unfold incomplete, transformSessionData. simpl existsb.
  intros [H | [H | [H1 H2]]].
  - now rewrite H.
  - rewrite H. simpl. now rewrite orb_true_r.
  - destruct (_ || _); [reflexivity|]. now rewrite H1, H2.
Qed.

Lemma acquire_keeps_cookie (w : @World opaque transport) (customFetch : option transport)
    (st st' : State) (r : Completion Innertube) (evs : list Event) :
  acquire w customFetch st = (r, st', evs) ->
  youtube_oauth st' = youtube_oauth st
  /\ (forall e, In e evs -> e = EvCreate)
  /\ (forall e, r = Throw e -> In EvCreate evs -> Innertube_create w customFetch = Throw e).
Proof.
  rewrite acquire_run.
  destruct (_ || _); [destruct (Innertube_create w customFetch)|destruct (innertube st)];
    intros [= <- <- <-]; simpl; repeat split; try tauto; try congruence;
    intros e' [<- | []]; reflexivity.
Qed.

(** Without usable credentials the session is handed on as it was made. *)
Lemma login_absent (w : @World opaque transport) (session0 : Session) (st : State) :
  transformSessionData (youtube_oauth st) = None ->
  logged_in session0 = false ->
  login DateTime toISOString w session0 st = (Return session0, st, []).
Proof.
  intros T L. unfold login, bind, getCookie, authenticate, refresh_and_persist, ret.
  rewrite T. simpl. rewrite L. reflexivity.
Qed.

(** C7: with a bundle that lacks one of the tokens, or both expiry fields,
    the session is built as if there were no bundle: it is not logged in,
    its OAuth state is untouched, the stored bundle stays as it is, and the
    only call a run can make is [Innertube.create]; nothing is thrown but
    what that call throws. *)
Theorem incomplete_bundle_is_ignored (w : @World opaque transport)
    (customFetch : option transport) (st st' : State) (values : gmap string jsval)
    (r : Completion Innertube) (evs : list Event) :
  incomplete values ->
  youtube_oauth st = Some values ->
  cloneInnertube' w customFetch st = (r, st', evs) ->
  transformSessionData (Some values) = transformSessionData None
  /\ youtube_oauth st' = Some values
  /\ (forall e, In e evs -> e = EvCreate)
  /\ (forall yt, r = Return yt ->
        logged_in (session yt) = false /\ oauth (session yt) = fresh_oauth)
  /\ (forall e, r = Throw e ->
        In EvCreate evs /\ Innertube_create w customFetch = Throw e)
  /\ (~ In EvCreate evs \/ (exists it, Innertube_create w customFetch = Return it) ->
      exists yt, r = Return yt).
Proof.
  intros Hinc Hc H.
  pose proof (transformSessionData_incomplete values Hinc) as T.
  rewrite cloneInnertube_run in H.
  destruct (acquire w customFetch st) as [[r1 st1] ev1] eqn:A.
  pose proof A as A'. apply acquire_keeps_cookie in A' as (K & E & Th).
  rewrite acquire_run in A.
  destruct r1 as [it|e].
  - rewrite login_absent in H by (rewrite ?K, ?Hc; auto).
    injection H as <- <- <-. rewrite app_nil_r.
    split; [exact T|]. split; [congruence|]. split; [exact E|].
    split; [intros yt [= <-]; split; reflexivity|].
    split; [discriminate|]. eauto.
  - injection H as <- <- <-.
    split; [exact T|]. split; [congruence|]. split; [exact E|].
    split; [discriminate|].
    assert (In EvCreate ev1 /\ Innertube_create w customFetch = Throw e) as [I C].
    { revert A. destruct (_ || _) eqn:D.
      - destruct (Innertube_create w customFetch); intros [= <- <- <-]; try discriminate.
        split; [now left|reflexivity].
      - apply orb_false_iff in D as [D _].
        destruct (innertube st); [discriminate|discriminate]. }
    split; [intros e' [= <-]; auto|].
    intros [N | [it C']]; [tauto|congruence].
Qed.




(** With a session expiry that is not a valid date, the two times differ
    whatever the stored one is, and [toISOString] throws before anything is
    written. *)
Lemma persist_expiry_invalid (cookieValues tokens : gmap string jsval)
    (s' : @Session opaque transport) (st : State) :
  oauth2_tokens (oauth s') = Some tokens ->
  DateTime (get_prop tokens "expiry_date") = None ->
  persist_expiry DateTime toISOString (Some cookieValues) s' st
  = (Throw (RangeError "Invalid time value"), st, []).
Proof.
  intros T N. unfold persist_expiry, throw. rewrite T, N.
  destruct (DateTime (get_prop cookieValues "expiry_date")); reflexivity.
Qed.




(** What the comparison of the expiries can end in. *)
Lemma persist_expiry_shape (cookie : option (gmap string jsval))
    (s' : @Session opaque transport) (st st' : State) (r : Completion Session)
    (evs : list Event) :
  persist_expiry DateTime toISOString cookie s' st = (r, st', evs) ->
  (r = Return s' /\ ((st' = st /\ evs = []) \/ exists v, evs = [EvUpdate v]))
  \/ (st' = st /\ evs = []
      /\ ((cookie = None
           /\ r = Throw (TypeError "Cannot read properties of undefined (reading 'values')"))
          \/ r = Throw (TypeError
                          "Cannot read properties of undefined (reading 'expiry_date')")
          \/ r = Throw (RangeError "Invalid time value"))).
Proof.
  unfold persist_expiry, bind, ret, throw, updateCookieValues.
  destruct cookie as [cv|]; [|intros [= <- <- <-]; right; auto 10].
  destruct (oauth2_tokens (oauth s')) as [tokens|]; [|intros [= <- <- <-]; right; auto 10].
  destruct (time_ne _ _); [|intros [= <- <- <-]; left; auto].
  destruct (DateTime (get_prop tokens "expiry_date"));
    intros [= <- <- <-]; [left; eauto|right; auto 10].
Qed.

Lemma authenticate_eq (w : @World opaque transport) (oauthData : option (gmap string jsval))
    (s0 : Session) (st : State) :
  logged_in s0 = false ->
  authenticate w oauthData s0 st
  = match oauthData with
    | None => (Return s0, st, [])
    | Some d =>
        match oauth_init w d with
        | Return oa => (Return (with_oauth s0 true oa), st, [EvInit d])
        | Throw e => (Throw e, st, [EvInit d])
        end
    end.
Proof.
  intros L. unfold authenticate, bind, call, ret. rewrite L. simpl.
  destruct oauthData as [d|]; [|reflexivity].
  destruct (oauth_init w d); reflexivity.
Qed.

Lemma refresh_and_persist_eq (w : @World opaque transport)
    (cookie : option (gmap string jsval)) (s1 : Session) (st : State) :
  refresh_and_persist DateTime toISOString w cookie s1 st
  = if logged_in s1 then
      if shouldRefreshToken w (oauth s1) then
        match refreshAccessToken w (oauth s1) with
        | Return oa =>
            match persist_expiry DateTime toISOString cookie
                    (with_oauth s1 (logged_in s1) oa) st with
            | (r, st', ev) => (r, st', EvRefresh :: ev)
            end
        | Throw e => (Throw e, st, [EvRefresh])
        end
      else persist_expiry DateTime toISOString cookie s1 st
    else (Return s1, st, []).
Proof.
  unfold refresh_and_persist, bind, call, ret.
  destruct (logged_in s1); [|reflexivity].
  destruct (shouldRefreshToken w (oauth s1)).
  - destruct (refreshAccessToken w (oauth s1)); [|reflexivity].
    destruct (persist_expiry _ _ _ _ st) as [[r st'] ev]. reflexivity.
  - destruct (persist_expiry _ _ _ _ st) as [[r st'] ev]. reflexivity.
Qed.

Lemma login_eq (w : @World opaque transport) (s0 : Session) (st : State) :
  login DateTime toISOString w s0 st
  = match authenticate w (transformSessionData (youtube_oauth st)) s0 st with
    | (Return s1, st1, ev1) =>
        match refresh_and_persist DateTime toISOString w (youtube_oauth st) s1 st1 with
        | (r, st2, ev2) => (r, st2, ev1 ++ ev2)
        end
    | (Throw e, st1, ev1) => (Throw e, st1, ev1)
    end.
Proof.
  unfold login, bind, getCookie.
  destruct (authenticate w _ s0 st) as [[[s1|e] st1] ev1]; [|reflexivity].
  destruct (refresh_and_persist _ _ w _ s1 st1) as [[r st2] ev2]. reflexivity.
Qed.

(** The steps after [acquire], for the session that [clone_session] makes. *)
Lemma login_shape (w : @World opaque transport) (s0 : Session) (st st' : State)
    (r : Completion Session) (evs : list Event) :
  logged_in s0 = false ->
  login DateTime toISOString w s0 st = (r, st', evs) ->
  exists i rf u,
    evs = i ++ rf ++ u
    /\ (i = [] \/ exists d, transformSessionData (youtube_oauth st) = Some d
                            /\ i = [EvInit d])
    /\ (rf = [] \/ rf = [EvRefresh])
    /\ (u = [] \/ exists v, u = [EvUpdate v])
    /\ (i = [] -> rf = [] /\ u = [])
    /\ (forall e, r = Throw e ->
          st' = st /\ u = []
          /\ ((exists d, oauth_init w d = Throw e)
              \/ (exists oa, refreshAccessToken w oa = Throw e)
              \/ e = TypeError "Cannot read properties of undefined (reading 'expiry_date')"
              \/ e = RangeError "Invalid time value"))
    /\ (forall s, r = Return s ->
          (logged_in s = true <-> transformSessionData (youtube_oauth st) <> None)
          /\ context s = context s0 /\ key s = key s0
          /\ api_version s = api_version s0 /\ account_index s = account_index s0
          /\ player s = player s0 /\ cache s = cache s0
          /\ http_fetch s = http_fetch s0).
Proof.
  intros L0. rewrite login_eq, (authenticate_eq _ _ _ _ L0).
  destruct (transformSessionData (youtube_oauth st)) as [d|] eqn:T.
  - assert (exists cv, youtube_oauth st = Some cv) as [cv C]
      by (destruct (youtube_oauth st); [eauto|discriminate]).
    destruct (oauth_init w d) as [oa|e] eqn:Init.
    + rewrite refresh_and_persist_eq. simpl logged_in. simpl oauth.
      destruct (shouldRefreshToken w oa).
      * destruct (refreshAccessToken w oa) as [oa'|e] eqn:Rf.
        -- destruct (persist_expiry _ _ _ _ st) as [[r2 st2] ev2] eqn:P.
           apply persist_expiry_shape in P
             as [[-> P] | (-> & E2 & [[P _] | [-> | ->]])];
             [| rewrite C in P; discriminate | |];
             intros [= <- <- <-]; exists [EvInit d], [EvRefresh], ev2;
             (split; [reflexivity|]); (split; [right; eauto|]);
             (split; [now right|]).
           ++ split; [destruct P as [[_ ->] | P]; auto|].
              split; [discriminate|]. split; [discriminate|].
              intros s [= <-]. simpl. repeat split; auto; discriminate.
           ++ split; [now left|]. split; [discriminate|].
              split; [|discriminate]. intros e [= <-]. auto 10.
           ++ split; [now left|]. split; [discriminate|].
              split; [|discriminate]. intros e [= <-]. auto 10.
        -- intros [= <- <- <-]. exists [EvInit d], [EvRefresh], [].
           split; [reflexivity|]. split; [right; eauto|]. split; [now right|].
           split; [now left|]. split; [discriminate|].
           split; [|discriminate]. intros e' [= <-]. eauto 10.
      * destruct (persist_expiry _ _ _ _ st) as [[r2 st2] ev2] eqn:P.
        apply persist_expiry_shape in P
          as [[-> P] | (-> & E2 & [[P _] | [-> | ->]])];
          [| rewrite C in P; discriminate | |];
          intros [= <- <- <-]; exists [EvInit d], [], ev2;
          (split; [reflexivity|]); (split; [right; eauto|]);
          (split; [now left|]).
        -- split; [destruct P as [[_ ->] | P]; auto|].
           split; [discriminate|]. split; [discriminate|].
           intros s [= <-]. simpl. repeat split; auto; discriminate.
        -- split; [now left|]. split; [discriminate|].
           split; [|discriminate]. intros e [= <-]. auto 10.
        -- split; [now left|]. split; [discriminate|].
           split; [|discriminate]. intros e [= <-]. auto 10.
    + intros [= <- <- <-]. exists [EvInit d], [], [].
      split; [reflexivity|]. split; [right; eauto|]. split; [now left|].
      split; [now left|]. split; [discriminate|].
      split; [|discriminate]. intros e' [= <-]. eauto 10.
  - rewrite refresh_and_persist_eq, L0. intros [= <- <- <-].
    exists [], [], []. split; [reflexivity|]. split; [now left|]. split; [now left|].
    split; [now left|]. split; [auto|]. split; [discriminate|].
    intros s [= <-]. rewrite L0. repeat split; auto; try discriminate; congruence.
Qed.

(** What [acquire] can end in. *)
Lemma acquire_shape (w : @World opaque transport) (customFetch : option transport)
    (st st1 : State) (r1 : Completion Innertube) (ev1 : list Event) :
  acquire w customFetch st = (r1, st1, ev1) ->
  (ev1 = [] \/ ev1 = [EvCreate])
  /\ youtube_oauth st1 = youtube_oauth st
  /\ (forall e, r1 = Throw e -> st1 = st /\ Innertube_create w customFetch = Throw e)
  /\ (forall it, r1 = Return it ->
        innertube st1 = Some it
        /\ (innertube st = Some it \/ Innertube_create w customFetch = Return it)).
Proof.
  rewrite acquire_run. destruct (_ || _) eqn:D.
  - destruct (Innertube_create w customFetch) as [it|e]; intros [= <- <- <-];
      (split; [now right|]); (split; [reflexivity|]);
      split; try discriminate.
    + intros it' [= <-]. auto.
    + intros e' [= <-]. auto.
  - apply orb_false_iff in D as [D _].
    destruct (innertube st) as [it|] eqn:I; [|discriminate].
    intros [= <- <- <-]. split; [now left|]. split; [reflexivity|].
    split; [discriminate|]. intros it' [= <-]. auto.
Qed.


End SessionProperties.

(** ** The session manager in the sample world *)

Section DefaultExport.

Context {opaque transport : Type}.
Variable DateTime : jsval -> option Z.
Variable toISOString : Z -> string.
Variable request_fetch : Request -> transport.
Variable StringToNumber : string -> jsnum.
Variable cleanString : string -> string.
Variable durationLimit : Z.

(** A plan of the default export is a plan of [process] for the info that
    [getBasicInfo] gave, and the id of that info is the requested one. *)
Lemma youtube_plan_id (w : @World opaque transport) (o : Request) (st st' : State)
    (r : Response) (evs : list Event) :
  youtube DateTime toISOString request_fetch StringToNumber cleanString durationLimit w o st
  = (Return r, st', evs) ->
  is_plan r = true ->
  exists yt info,
    getBasicInfo w yt (o_id o) (if logged_in (session yt) then "ANDROID" else "IOS")
    = Return (Some info)
    /\ process StringToNumber cleanString durationLimit o info = Return r
    /\ info_id (basic_info info) = Some (o_id o).
Proof.
  unfold youtube. intros H P.
  destruct (cloneInnertube _ _ w _ st) as [[[yt|e] st1] ev1].
  - destruct (getBasicInfo w yt (o_id o) _) as [[info|]|e] eqn:G.
    + injection H as H <- <-. exists yt, info.
      split; [exact G|]. split; [exact H|].
      now apply process_plan in H as (_ & _ & _ & Hid & _).
    + injection H as <- <- <-. discriminate.
    + destruct (str_is (info_reason e) _); [|destruct (str_is (message e) _)];
        injection H as <- <- <-; discriminate.
  - destruct (message_endsWith e _); [|destruct (message_includes e _)];
      try discriminate; injection H as <- <- <-; discriminate.
Qed.

End DefaultExport.

(** C6, as stated: with a client in place and the clock exactly 15 minutes
    past [lastRefreshedAt], the client is not made again. *)
Lemma no_rebuild_at_fifteen_minutes :
  let st := sample_state (Some sample_client) (Some 1700000000000) None in
  let w := sample_world (1700000000000 + PLAYER_REFRESH_PERIOD) false in
  (now_check w - 1700000000000 >= 1000 * 60 * 15)%Z
  /\ cloneInnertube sampleDateTime sampleISOString w (Some tt) st
     = (Return sample_client, st, []).
Proof. split; [vm_compute; discriminate|reflexivity]. Qed.

Lemma client_rebuild_witness :
  let st0 := sample_state None None None in
  let st1 := sample_state (Some sample_client) (Some 1700000000250) None in
  let w1 := sample_world 1700000000000 false in
  let w2 := sample_world (1700000000250 + PLAYER_REFRESH_PERIOD) false in
  cloneInnertube sampleDateTime sampleISOString w1 (Some tt) st0
  = (Return sample_client, st1, [EvCreate])
  /\ cloneInnertube sampleDateTime sampleISOString w2 (Some tt) st1
     = (Return sample_client, st1, [])
  /\ ~ In EvCreate []
  /\ (rebuilds ([EvCreate] ++ []) <= 1)%nat.
Proof.
  intros st0 st1 w1 w2.
  split; [reflexivity|]. split; [reflexivity|].
  apply (client_rebuild sampleDateTime sampleISOString w1 w2 (Some tt) (Some tt)
           st0 st1 st1 (Return sample_client) (Return sample_client)
           [EvCreate] [] eq_refl eq_refl) with (t := 1700000000250%Z).
  - discriminate.
  - reflexivity.
  - subst w2. unfold PLAYER_REFRESH_PERIOD. simpl. lia.
Defined.

Lemma incomplete_bundle_witness :
  incomplete bundle_without_refresh
  /\ youtube_oauth (snd (fst incomplete_run)) = Some bundle_without_refresh
  /\ forall e, In e (snd incomplete_run) -> e = EvCreate.
Proof.
  assert (incomplete bundle_without_refresh) as I by (right; left; reflexivity).
  split; [exact I|].
  destruct (incomplete_bundle_is_ignored sampleDateTime sampleISOString
              (sample_world 1700000000100 false) (Some tt) incomplete_state
              (snd (fst incomplete_run)) bundle_without_refresh
              (fst (fst incomplete_run)) (snd incomplete_run) I eq_refl eq_refl)
    as (_ & K & E & _).
  split; [exact K|exact E].
Defined.



(** The run of the witness: the stored expiry is the old one, the session's
    is an hour later, and the bundle is written with the new one. *)
Example login_run_writes :
  get_prop sample_bundle "expiry_date" = VNum 1700000000000
  /\ (oauth2_tokens (oauth (session login_client)) ≫= (.!! "expiry_date"))
     = Some (VNum 1700003600000)
  /\ List.filter is_update (snd login_run)
     = [EvUpdate (<["expiry_date" := VStr "2023-11-14T23:13:20.000Z"]>
                    (<["access_token" := VStr "new-access"]>
                       (<["client_id" := VStr "client"]> sample_bundle)))]
  /\ (youtube_oauth (snd (fst login_run)) ≫= (.!! "expiry_date"))
     = Some (VStr "2023-11-14T23:13:20.000Z").
Proof. vm_compute. repeat split. Qed.

(** * Further properties of the module *)

(** ** The default export past the fetch *)

Section ServiceFurther.

Variable StringToNumber : string -> jsnum.
Variable cleanString : string -> string.
Variable durationLimit : Z.

Local Abbreviation select_streams' := (select_streams StringToNumber cleanString).
Local Abbreviation process' := (process StringToNumber cleanString durationLimit).

(** Without an audio, no variant of the list is audio-only. *)
Lemma select_audio_none (dub : option string) (fs : list Format) :
  fst (select_audio dub fs) = None -> List.find checkBestAudio fs = None.
Proof.
  unfold select_audio.
  destruct (List.find (fun i => checkBestAudio i && is_original i) fs) as [a|];
    destruct dub as [[|c lang]|]; simpl; try discriminate; try tauto;
    destruct (dubbedAudio (String c lang) fs) as [d|]; simpl; try discriminate;
    try tauto;
    destruct (negb (track_is_default d)); simpl; try discriminate; tauto.
Qed.

(** A list with no audio-only variant whose first variant with audio and a
    content length is found has a variant with video and a content length:
    that very one. *)
Lemma audio_variant_has_video (dub : option string) (fs : list Format) (h : Format) :
  fst (select_audio dub fs) = None -> hasAudio fs = Some h -> bestVideo fs <> None.
Proof.
  intros A H B. apply select_audio_none in A.
  apply List.find_some in H as [Hin Hh].
  apply andb_true_iff in Hh as [Ha Hc].
  pose proof (List.find_none _ _ B h Hin) as Hv. simpl in Hv. rewrite Hc in Hv.
  rewrite andb_true_r in Hv.
  pose proof (List.find_none _ _ A h Hin) as Hb.
  unfold checkBestAudio in Hb. rewrite Ha, Hv in Hb. discriminate.
Qed.

(** X1: [qual(bestVideo)] of line 275 never reads [quality_label] of
    undefined. Whenever the test of fetch.empty fails on a list, and the
    request is not for audio only or no audio is selected, the list has a
    best video; so the selection never ends in the TypeError of that read. *)
Theorem quality_label_read_is_safe (o : Request) (info : VideoInfo) :
  (forall fs,
      ~ ((bestVideo fs = None /\ isAudioOnly o = false)
         \/ (hasAudio fs = None /\ isAudioOnly o = true)) ->
      (isAudioOnly o = true -> fst (select_audio (dubLang o) fs) = None) ->
      exists bv, bestVideo fs = Some bv)
  /\ select_streams' o info
     <> Throw (TypeError "Cannot read properties of undefined (reading 'quality_label')").
Proof.
  split.
  - intros fs NE NA. destruct (bestVideo fs) as [bv|] eqn:B; [eauto|]. exfalso.
    destruct (isAudioOnly o) eqn:I; [|apply NE; left; auto].
    destruct (hasAudio fs) as [h|] eqn:H; [|apply NE; right; auto].
    apply (audio_variant_has_video (dubLang o) fs h (NA eq_refl) H B).
  - unfold select_streams.
    destruct (resolve_formats (requested_format o) (adaptive_formats info)) as [f fs].
    destruct (select_audio (dubLang o) fs) as [audio isDubbed] eqn:A.
    destruct (bestVideo fs) as [bv|] eqn:B.
    + destruct (_ || _); [discriminate|].
      destruct audio as [a|], (isAudioOnly o); try discriminate;
        destruct (merge_video StringToNumber o bv fs); discriminate.
    + destruct (isAudioOnly o) eqn:I; simpl; [|discriminate].
      destruct (hasAudio fs) as [h|] eqn:H; simpl; [|discriminate].
      destruct audio as [a|]; [discriminate|]. exfalso.
      apply (audio_variant_has_video (dubLang o) fs h); [now rewrite A|exact H|exact B].
Qed.

(** The errors of the selection: fetch.empty when the candidate the request
    needs is missing, fetch.fail otherwise; neither is critical. *)
Lemma select_streams_error (o : Request) (info : VideoInfo) (k : string) (c : bool) :
  let fs := snd (resolve_formats (requested_format o) (adaptive_formats info)) in
  select_streams' o info = Return (RError k c) ->
  c = false
  /\ (k = "fetch.empty" \/ k = "fetch.fail")
  /\ (k = "fetch.empty" <->
      (bestVideo fs = None /\ isAudioOnly o = false)
      \/ (hasAudio fs = None /\ isAudioOnly o = true)).
Proof.
  unfold select_streams.
  destruct (resolve_formats (requested_format o) (adaptive_formats info)) as [f fs].
  simpl snd.
  destruct (select_audio (dubLang o) fs) as [audio isDubbed].
  destruct (bestVideo fs) as [bv|], (hasAudio fs) as [h|], (isAudioOnly o); simpl;
    try (intros [= <- <-]; split; [reflexivity|]; split; [now left|];
         split; [intros _|reflexivity]; tauto);
    destruct audio as [a|]; try discriminate;
    try destruct (merge_video StringToNumber o bv fs); try discriminate;
    intros [= <- <-]; (split; [reflexivity|]); (split; [now right|]);
    (split; [discriminate|]); intros [[? ?] | [? ?]]; discriminate.
Qed.

(** X2: an answer flagged critical is the fetch.fail of an info that passed
    every check of the gate and whose id is not the requested one; no other
    error carries the flag. *)
Theorem critical_iff_id_mismatch (o : Request) (info : VideoInfo) (k : string) :
  process' o info = Return (RError k true) <->
  k = "fetch.fail"
  /\ status (playability_status info) = "OK"
  /\ is_live (basic_info info) = false
  /\ exceeds (duration (basic_info info)) durationLimit = false
  /\ info_id (basic_info info) <> Some (o_id o).
Proof.
  unfold process. split.
  - destruct (playability_switch (playability_status info)) as [[r|]|e] eqn:G;
      [| |discriminate].
    + intros [= ->]. revert G. unfold playability_switch, error_.
      repeat match goal with
             | |- context [if ?b then _ else _] => destruct b
             | |- context [match reason ?p with _ => _ end] => destruct (reason p)
             end; discriminate.
    + destruct (String.eqb (status (playability_status info)) "OK") eqn:S;
        [|discriminate]. simpl.
      destruct (is_live (basic_info info)); [discriminate|].
      destruct (exceeds (duration (basic_info info)) durationLimit); [discriminate|].
      destruct (strict_ne (info_id (basic_info info)) (o_id o)) eqn:N.
      * intros [= <-]. apply String.eqb_eq in S. repeat split; auto.
        intros E. unfold strict_ne, str_is in N. rewrite E, String.eqb_refl in N.
        discriminate.
      * intros H. apply select_streams_error in H as [H _]. discriminate.
  - intros (-> & S & L & D & N).
    unfold playability_switch. rewrite S, L, D. simpl.
    unfold strict_ne, str_is.
    destruct (info_id (basic_info info)) as [x|]; [|reflexivity].
    destruct (String.eqb x (o_id o)) eqn:E; [|reflexivity].
    apply String.eqb_eq in E. congruence.
Qed.

(** X3: every error the export answers with, from the fetched info on, is
    one of these ten kinds. *)
Theorem process_error_kinds (o : Request) (info : VideoInfo) (k : string) (c : bool) :
  process' o info = Return (RError k c) ->
  In k [ "youtube.login"; "content.video.age"; "content.video.private"; "fetch.rate";
         "content.video.region"; "content.video.unavailable"; "content.video.live";
         "content.too_long"; "fetch.fail"; "fetch.empty" ].
Proof.
  unfold process.
  destruct (playability_switch (playability_status info)) as [[r|]|e] eqn:G;
    [| |discriminate].
  - intros [= ->]. revert G. unfold playability_switch, error_.
    repeat match goal with
           | |- context [if ?b then _ else _] => destruct b
           | |- context [match reason ?p with _ => _ end] => destruct (reason p)
           end; try discriminate; intros [= <- <-]; simpl; tauto.
  - repeat match goal with
           | |- context [if ?b then _ else _] => destruct b
           end; try (intros [= <- <-]; simpl; tauto).
    intros H. apply select_streams_error in H as (_ & [-> | ->] & _); simpl; tauto.
Qed.

(** X4: the kind of a plan is that of the request: an audio plan answers a
    request for audio only, a merged plan a request that is not. *)
Theorem plan_kind_follows_request (o : Request) (info : VideoInfo) (r : Response) :
  process' o info = Return r ->
  match r with
  | RAudio _ _ _ _ _ _ => isAudioOnly o = true
  | RMerge _ _ _ _ _ _ => isAudioOnly o = false
  | RError _ _ => True
  end.
Proof.
  intros H. destruct r as [k c | | ]; [exact I| |];
    (apply process_plan in H as (_ & _ & _ & _ & H); [|reflexivity]);
    revert H; unfold select_streams;
    destruct (resolve_formats (requested_format o) (adaptive_formats info)) as [f fs];
    destruct (select_audio (dubLang o) fs) as [audio isDubbed];
    (destruct (_ || _); [discriminate|]);
    destruct audio as [a|], (isAudioOnly o); try discriminate; try reflexivity;
    (destruct (bestVideo fs) as [bv|]; [|discriminate]);
    destruct (merge_video StringToNumber o bv fs); discriminate.
Qed.

Lemma resolve_formats_elements (f0 : Codec) (formats : list Format) (e : Format) :
  In e (snd (resolve_formats f0 formats)) <->
  In e formats /\ matches_codec (fst (resolve_formats f0 formats)) e = true.
Proof.
  unfold resolve_formats. destruct (_ && _); simpl; apply filterByCodec_elements.
Qed.

Lemma select_audio_some (dub : option string) (fs : list Format) (a : Format) (dubbed : bool) :
  select_audio dub fs = (Some a, dubbed) -> In a fs /\ checkBestAudio a = true.
Proof.
  unfold select_audio.
  assert (forall P, List.find (fun i => checkBestAudio i && P i) fs = Some a ->
                    In a fs /\ checkBestAudio a = true) as F.
  { intros P H. apply List.find_some in H as [H1 H2].
    apply andb_true_iff in H2 as [H2 _]. auto. }
  assert (forall lang, dubbedAudio lang fs = Some a -> In a fs /\ checkBestAudio a = true)
    as D.
  { intros lang H. apply List.find_some in H as [H1 H2].
    apply andb_true_iff in H2 as [H2 _]. apply andb_true_iff in H2 as [H2 _]. auto. }
  destruct (List.find (fun i => checkBestAudio i && is_original i) fs) as [x|] eqn:O;
    destruct dub as [[|c lang]|]; simpl;
    try (intros [= <- <-]; now apply (F is_original));
    try (intros [= H <-]; now apply List.find_some in H);
    destruct (dubbedAudio (String c lang) fs) as [d|] eqn:Hd; simpl;
    try (intros [= <- <-]; now apply (F is_original));
    try (intros [= H <-]; now apply List.find_some in H);
    destruct (negb (track_is_default d)); simpl;
    try (intros [= <- <-]; first [now apply (D (String c lang)) | now apply (F is_original)]);
    try (intros [= H <-]; now apply List.find_some in H).
Qed.

(** X5: the streams of a plan are variants of the info, of the family the
    selection settled on; the video of a merged plan has video and no
    audio, the audio of either plan has audio and no video, and the label
    and the resolution of a merged plan are those of its video. *)
Theorem plan_streams_are_adaptive (o : Request) (info : VideoInfo) (r : Response) :
  let f := fst (resolve_formats (requested_format o) (adaptive_formats info)) in
  process' o info = Return r ->
  match r with
  | RError _ _ => True
  | RAudio u _ _ _ _ _ =>
      exists a, In a (adaptive_formats info) /\ matches_codec f a = true
                /\ has_audio a = true /\ has_video a = false /\ u = url a
  | RMerge (vu, au) _ _ _ fa _ =>
      exists v a,
        In v (adaptive_formats info) /\ matches_codec f v = true
        /\ has_video v = true /\ has_audio v = false /\ vu = url v
        /\ qualityLabel fa = quality_label v
        /\ resolution fa = Some (resolution_of v)
        /\ In a (adaptive_formats info) /\ matches_codec f a = true
        /\ has_audio a = true /\ has_video a = false /\ au = url a
  end.
Proof.
  intros f H. destruct r as [k c | u st en fa fm best | [vu au] st en wm fa fm];
    [exact I| |];
    (apply process_plan in H as (_ & _ & _ & _ & H); [|reflexivity]);
    revert H; unfold select_streams;
    pose proof (resolve_formats_elements (requested_format o) (adaptive_formats info)) as E;
    fold f in E;
    destruct (resolve_formats (requested_format o) (adaptive_formats info)) as [f' fs];
    simpl in f, E; subst f;
    destruct (select_audio (dubLang o) fs) as [audio isDubbed] eqn:A;
    (destruct (_ || _); [discriminate|]);
    destruct audio as [a|], (isAudioOnly o); try discriminate;
    try (destruct (bestVideo fs) as [bv|]; [|discriminate]);
    try (destruct (merge_video StringToNumber o bv fs) as [v|] eqn:V; [|discriminate]);
    try discriminate;
    apply select_audio_some in A as [Ain Aa];
    apply andb_true_iff in Aa as [Aa Av]; apply negb_true_iff in Av;
    apply E in Ain as [Ain Am].
  - intros [= <- <- <- <- <- <-]. exists a. auto 10.
  - intros [= <- <- <- <- <- <- <-].
    apply List.find_some in V as [Vin Vp].
    apply andb_true_iff in Vp as [Vp Va]. apply andb_true_iff in Vp as [_ Vv].
    apply negb_true_iff in Va. apply E in Vin as [Vin Vm].
    exists v, a. simpl. auto 15.
Qed.

(** X6: among the variants of one kind the selection takes the one with the
    highest bitrate: the video among the video-only variants of its parsed
    quality, a dubbed audio among the audio-only tracks of the language
    that carry track metadata, an original audio among the original
    audio-only tracks, and any other audio among all audio-only tracks. *)
Theorem selected_streams_have_highest_bitrate (o : Request) (info : VideoInfo) :
  let fs := snd (resolve_formats (requested_format o) (adaptive_formats info)) in
  (forall bv v y,
      merge_video StringToNumber o bv fs = Some v ->
      In y fs -> has_video y = true -> has_audio y = false -> qual y = qual v ->
      (bitrate y <= bitrate v)%Z)
  /\ (forall a dubbed y,
        select_audio (dubLang o) fs = (Some a, dubbed) ->
        In y fs -> checkBestAudio y = true ->
        (if dubbed
         then language y = dubLang o /\ audio_track y <> None
         else is_original a = true -> is_original y = true) ->
        (bitrate y <= bitrate a)%Z).
Proof.
  intros fs.
  assert (Sorted bitrate_ge fs) as S by apply resolve_formats_sorted.
  split.
  - intros bv v y V Hy Yv Ya Yq. unfold merge_video, select_video in V.
    eapply (first_of_sorted_is_highest _ fs v S V y Hy).
    pose proof V as V'. apply List.find_some in V' as [_ Vp].
    apply andb_true_iff in Vp as [Vp _]. apply andb_true_iff in Vp as [Vp _].
    rewrite Yq, Vp, Yv, Ya. reflexivity.
  - intros a dubbed y A Hy Yb Hk. revert A. unfold select_audio.
    destruct (List.find (fun i => checkBestAudio i && is_original i) fs) as [x|] eqn:O.
    + assert (is_original x = true) as Xo.
      { apply List.find_some in O as [_ O]. now apply andb_true_iff in O as [_ O]. }
      destruct (dubLang o) as [[|c lang]|] eqn:L; simpl;
        try (intros [= <- <-];
             apply (first_of_sorted_is_highest _ fs x S O y Hy);
             rewrite Yb, (Hk Xo); reflexivity).
      destruct (dubbedAudio (String c lang) fs) as [d|] eqn:Hd; simpl;
        try (intros [= <- <-];
             apply (first_of_sorted_is_highest _ fs x S O y Hy);
             rewrite Yb, (Hk Xo); reflexivity).
      destruct (negb (track_is_default d)); simpl; intros [= <- <-].
      * apply (first_of_sorted_is_highest _ fs d S Hd y Hy).
        destruct Hk as [Hl Ht]. rewrite Yb, Hl. unfold str_is.
        rewrite String.eqb_refl.
        destruct (audio_track y); [reflexivity|congruence].
      * apply (first_of_sorted_is_highest _ fs x S O y Hy).
        rewrite Yb, (Hk Xo). reflexivity.
    + assert (forall z, List.find checkBestAudio fs = Some z ->
                        (bitrate y <= bitrate z)%Z) as Any.
      { intros z Z. apply (first_of_sorted_is_highest _ fs z S Z y Hy Yb). }
      destruct (dubLang o) as [[|c lang]|] eqn:L; simpl;
        try (intros [= Z <-]; now apply Any).
      destruct (dubbedAudio (String c lang) fs) as [d|] eqn:Hd; simpl;
        try (intros [= Z <-]; now apply Any).
      destruct (negb (track_is_default d)); simpl.
      * intros [= <- <-].
        apply (first_of_sorted_is_highest _ fs d S Hd y Hy).
        destruct Hk as [Hl Ht]. rewrite Yb, Hl. unfold str_is.
        rewrite String.eqb_refl.
        destruct (audio_track y); [reflexivity|congruence].
      * intros [= Z <-]. now apply Any.
Qed.

(** The checks of the gate, passed. *)
Lemma process_past_gate (o : Request) (info : VideoInfo) :
  status (playability_status info) = "OK" ->
  is_live (basic_info info) = false ->
  exceeds (duration (basic_info info)) durationLimit = false ->
  info_id (basic_info info) = Some (o_id o) ->
  process' o info = select_streams' o info.
Proof.
  intros S L D N. unfold process, playability_switch. rewrite S, L, D. simpl.
  unfold strict_ne, str_is. rewrite N, String.eqb_refl. reflexivity.
Qed.

(** X7: the retry with h264 is for a family that matches nothing at all.
    When some variant matches the requested family and none of those that
    match is a video with a content length, a request that is not for audio
    only is answered with fetch.empty, whatever the other families hold. *)
Theorem no_fallback_without_video (o : Request) (info : VideoInfo) (e : Format) :
  status (playability_status info) = "OK" ->
  is_live (basic_info info) = false ->
  exceeds (duration (basic_info info)) durationLimit = false ->
  info_id (basic_info info) = Some (o_id o) ->
  isAudioOnly o = false ->
  In e (adaptive_formats info) ->
  matches_codec (requested_format o) e = true ->
  (forall x, In x (adaptive_formats info) ->
             matches_codec (requested_format o) x = true ->
             has_video x && truthy_num (content_length x) = false) ->
  process' o info = Return (error_ "fetch.empty").
Proof.
  intros S L D N A He Hm Hno. rewrite (process_past_gate o info S L D N).
  unfold select_streams.
  rewrite resolve_formats_keep.
  2:{ intros E. assert (In e (filterByCodec (requested_format o) (adaptive_formats info)))
        as Hin by (apply filterByCodec_elements; auto).
      rewrite E in Hin. destruct Hin. }
  assert (bestVideo (filterByCodec (requested_format o) (adaptive_formats info)) = None)
    as B.
  { destruct (bestVideo _) as [bv|] eqn:B; [|reflexivity].
    apply List.find_some in B as [Hin Hp].
    apply filterByCodec_elements in Hin as [Hin Hc].
    rewrite (Hno bv Hin Hc) in Hp. discriminate. }
  cbv beta iota. rewrite B, A. reflexivity.
Qed.

(** X8: a requested quality that does not exceed that of the best video is
    matched exactly, or not at all: when no variant with video and without
    audio has it as its parsed quality, the answer is fetch.fail, whatever
    lower qualities there are. *)
Theorem unmatched_quality_fails (o : Request) (info : VideoInfo) (bv : Format)
    (bq : string) (x b : Z) :
  let fs := snd (resolve_formats (requested_format o) (adaptive_formats info)) in
  reads_decimals StringToNumber ->
  status (playability_status info) = "OK" ->
  is_live (basic_info info) = false ->
  exceeds (duration (basic_info info)) durationLimit = false ->
  info_id (basic_info info) = Some (o_id o) ->
  isAudioOnly o = false ->
  bestVideo fs = Some bv ->
  qual bv = Some bq ->
  decimal_value (quality o) = Some x ->
  decimal_value bq = Some b ->
  (x <= b)%Z -> (b <= 2 ^ 53)%Z ->
  (forall i, In i fs -> qual i = Some (quality o) ->
             has_video i = false \/ has_audio i = true) ->
  process' o info = Return (error_ "fetch.fail").
Proof.
  intros fs Hnum S L D N A B Q X Bq Hle Hb Hno.
  rewrite (process_past_gate o info S L D N).
  unfold select_streams. subst fs.
  destruct (resolve_formats (requested_format o) (adaptive_formats info)) as [f fs].
  simpl in B, Hno. rewrite B, A. simpl. rewrite andb_false_r.
  destruct (select_audio (dubLang o) fs) as [audio isDubbed].
  assert (quality o <> "max") as Nmax by (intros E; rewrite E in X; discriminate).
  assert (merge_video StringToNumber o bv fs = None) as V.
  { unfold merge_video, select_video.
    rewrite (requested_quality_other o Nmax), Q.
    rewrite (matchingQuality_decimal StringToNumber (quality o) bq x b Hnum X Bq);
      [|lia|lia].
    assert ((b <? x)%Z = false) as -> by (apply Z.ltb_ge; lia).
    destruct (List.find _ fs) as [v|] eqn:F; [|reflexivity].
    apply List.find_some in F as [Hin Hp].
    apply andb_true_iff in Hp as [Hp Ha]. apply andb_true_iff in Hp as [Hq Hv].
    apply negb_true_iff in Ha.
    assert (qual v = Some (quality o)) as Hqv.
    { unfold strict_eq in Hq. destruct (qual v) as [q|]; [|discriminate].
      apply String.eqb_eq in Hq. now subst. }
    destruct (Hno v Hin Hqv); congruence. }
  rewrite V. destruct audio; reflexivity.
Qed.

(** X9: the filename attributes of a plan name the service, the requested
    id, and the title and the artist of the metadata, which is that of the
    info; an audio plan has none of the four attributes of a merged plan. *)
Theorem plan_attributes (o : Request) (info : VideoInfo) (r : Response) :
  process' o info = Return r ->
  match r with
  | RError _ _ => True
  | RAudio _ _ _ fa fm _ =>
      fm = file_metadata cleanString (basic_info info)
      /\ service fa = "youtube" /\ fa_id fa = o_id o
      /\ info_id (basic_info info) = Some (fa_id fa)
      /\ fa_title fa = fm_title fm /\ fa_author fa = artist fm
      /\ qualityLabel fa = None /\ resolution fa = None
      /\ extension fa = None /\ youtubeFormat fa = None
  | RMerge _ _ _ _ fa fm =>
      fm = file_metadata cleanString (basic_info info)
      /\ service fa = "youtube" /\ fa_id fa = o_id o
      /\ info_id (basic_info info) = Some (fa_id fa)
      /\ fa_title fa = fm_title fm /\ fa_author fa = artist fm
      /\ resolution fa <> None /\ extension fa <> None /\ youtubeFormat fa <> None
  end.
Proof.
  intros H. destruct r as [k c | u st en fa fm best | urls st en wm fa fm];
    [exact I| |];
    (apply process_plan in H as (_ & _ & _ & Hid & H); [|reflexivity]);
    revert H; unfold select_streams;
    destruct (resolve_formats (requested_format o) (adaptive_formats info)) as [f fs];
    destruct (select_audio (dubLang o) fs) as [audio isDubbed];
    (destruct (_ || _); [discriminate|]);
    destruct audio as [a|], (isAudioOnly o); try discriminate;
    try (destruct (bestVideo fs) as [bv|]; [|discriminate]);
    try (destruct (merge_video StringToNumber o bv fs) as [v|]; [|discriminate]);
    try discriminate.
  - intros [= <- <- <- <- <- <-]. simpl. repeat split; auto.
  - intros [= <- <- <- <- <- <-]. simpl. repeat split; auto; discriminate.
Qed.

End ServiceFurther.

(** ** The stored credentials *)

Lemma truthy_get_prop (values : gmap string jsval) (k : string) :
  truthy (values !! k) = true -> values !! k = Some (get_prop values k).
Proof. unfold get_prop. destruct (values !! k); [reflexivity|discriminate]. Qed.

Lemma tokens_are_strings (values : gmap string jsval) :
  existsb (fun x => negb (is_string (values !! x))) ["access_token"; "refresh_token"] = false
  <-> is_string (values !! "access_token") = true
      /\ is_string (values !! "refresh_token") = true.
Proof.
  cbn [existsb]. rewrite orb_false_r, orb_false_iff, !negb_false_iff. tauto.
Qed.

(** X10: a bundle is accepted exactly when both tokens are strings and one
    of [expires] and [expiry_date] is truthy. *)
Theorem transformSessionData_accepts (values : gmap string jsval) :
  transformSessionData (Some values) <> None <->
  is_string (values !! "access_token") = true
  /\ is_string (values !! "refresh_token") = true
  /\ (truthy (values !! "expires") = true \/ truthy (values !! "expiry_date") = true).
Proof.
  unfold transformSessionData.
  destruct (existsb _ _) eqn:T.
  - split; [congruence|]. intros (A & R & _).
    assert (existsb (fun x => negb (is_string (values !! x)))
                    ["access_token"; "refresh_token"] = false) as T'
      by (apply tokens_are_strings; auto).
    congruence.
  - apply tokens_are_strings in T as [A R].
    destruct (truthy (values !! "expires")); [split; [auto|discriminate]|].
    destruct (truthy (values !! "expiry_date")); simpl.
    + split; [auto|discriminate].
    + split; [congruence|]. intros (_ & _ & [E | E]); discriminate.
Qed.

(** X11: what is handed to the session has both tokens as strings, a truthy
    [expiry_date], which is the stored [expires] when that is truthy and the
    stored [expiry_date] otherwise, no truthy [expires], and every other
    key as it is stored. *)
Theorem transformSessionData_normal_form (values r : gmap string jsval) :
  transformSessionData (Some values) = Some r ->
  is_string (r !! "access_token") = true
  /\ is_string (r !! "refresh_token") = true
  /\ truthy (r !! "expiry_date") = true
  /\ truthy (r !! "expires") = false
  /\ get_prop r "expiry_date"
     = (if truthy (values !! "expires") then get_prop values "expires"
        else get_prop values "expiry_date")
  /\ (forall k, k <> "expires" -> k <> "expiry_date" -> r !! k = values !! k).
Proof.
  unfold transformSessionData.
  destruct (existsb _ _) eqn:T; [discriminate|].
  apply tokens_are_strings in T as [A R].
  destruct (truthy (values !! "expires")) eqn:E.
  - intros [= <-]. pose proof (truthy_get_prop _ _ E) as G.
    split; [now rewrite lookup_delete_ne, lookup_insert_ne by discriminate|].
    split; [now rewrite lookup_delete_ne, lookup_insert_ne by discriminate|].
    split; [rewrite lookup_delete_ne, lookup_insert_eq by discriminate;
            now rewrite <- G|].
    split; [now rewrite lookup_delete_eq|].
    split; [unfold get_prop at 1;
            now rewrite lookup_delete_ne, lookup_insert_eq by discriminate|].
    intros k K1 K2. now rewrite lookup_delete_ne, lookup_insert_ne by congruence.
  - destruct (truthy (values !! "expiry_date")) eqn:D; [|discriminate].
    intros [= <-]. repeat split; auto.
Qed.

(** X12: normalising is idempotent: what [transformSessionData] gives is
    accepted as it is. *)
Theorem transformSessionData_idempotent (values r : gmap string jsval) :
  transformSessionData (Some values) = Some r ->
  transformSessionData (Some r) = Some r.
Proof.
  unfold transformSessionData.
  destruct (existsb _ _) eqn:T; [discriminate|].
  destruct (truthy (values !! "expires")) eqn:E.
  - intros [= <-]. pose proof (truthy_get_prop _ _ E) as G.
    apply tokens_are_strings in T as [A R].
    replace (existsb _ _) with false.
    2:{ symmetry. apply tokens_are_strings.
        rewrite !lookup_delete_ne, !lookup_insert_ne by discriminate. auto. }
    rewrite lookup_delete_eq. cbn [truthy].
    rewrite lookup_delete_ne, lookup_insert_eq by discriminate.
    rewrite <- G, E. reflexivity.
  - destruct (truthy (values !! "expiry_date")) eqn:D; [|discriminate].
    intros [= <-]. now rewrite T, E, D.
Qed.

(** ** The build of a session *)

Section SessionFurther.

Context {opaque transport : Type}.
Variable DateTime : jsval -> option Z.
Variable toISOString : Z -> string.

Local Abbreviation cloneInnertube' := (@cloneInnertube opaque transport DateTime toISOString).

(** X13: a build calls [Innertube.create], [oauth.init],
    [oauth.refreshAccessToken] and the update of the store at most once
    each and in this order; [oauth.init] is given the normalised bundle, and
    without it there is no refresh and no write. *)
Theorem session_calls_in_order (w : @World opaque transport) (customFetch : option transport)
    (st st' : State) (r : Completion Innertube) (evs : list Event) :
  cloneInnertube' w customFetch st = (r, st', evs) ->
  exists c i rf u,
    evs = c ++ i ++ rf ++ u
    /\ (c = [] \/ c = [EvCreate])
    /\ (i = [] \/ exists d, transformSessionData (youtube_oauth st) = Some d
                            /\ i = [EvInit d])
    /\ (rf = [] \/ rf = [EvRefresh])
    /\ (u = [] \/ exists v, u = [EvUpdate v])
    /\ (i = [] -> rf = [] /\ u = []).
Proof.
  rewrite cloneInnertube_run.
  destruct (acquire w customFetch st) as [[r1 st1] ev1] eqn:A.
  apply acquire_shape in A as (C & K & _ & _).
  destruct r1 as [it|e].
  - destruct (login _ _ w _ st1) as [[r2 st2] ev2] eqn:G.
    apply login_shape in G as (i & rf & u & -> & Hi & Hr & Hu & Hn & _);
      [|reflexivity].
    rewrite K in Hi.
    intros H. exists ev1, i, rf, u.
    split; [destruct r2; injection H as <- <- <-; reflexivity|]. auto.
  - intros [= <- <- <-]. exists ev1, [], [], [].
    rewrite !app_nil_r. repeat split; auto.
Qed.

(** X14: a build throws only what [Innertube.create], [oauth.init] or
    [oauth.refreshAccessToken] throws, the TypeError of a session without
    tokens, or the RangeError of an expiry that is no valid date; and a
    build that throws has not written to the store. *)
Theorem session_exceptions (w : @World opaque transport) (customFetch : option transport)
    (st st' : State) (e : Exn) (evs : list Event) :
  cloneInnertube' w customFetch st = (Throw e, st', evs) ->
  youtube_oauth st' = youtube_oauth st
  /\ List.filter is_update evs = []
  /\ (Innertube_create w customFetch = Throw e
      \/ (exists d, oauth_init w d = Throw e)
      \/ (exists oa, refreshAccessToken w oa = Throw e)
      \/ e = TypeError "Cannot read properties of undefined (reading 'expiry_date')"
      \/ e = RangeError "Invalid time value").
Proof.
  rewrite cloneInnertube_run.
  destruct (acquire w customFetch st) as [[r1 st1] ev1] eqn:A.
  apply acquire_shape in A as (C & K & T & _).
  assert (List.filter is_update ev1 = []) as U1 by (destruct C as [-> | ->]; reflexivity).
  destruct r1 as [it|e1].
  - destruct (login _ _ w _ st1) as [[r2 st2] ev2] eqn:G.
    apply login_shape in G as (i & rf & u & -> & Hi & Hr & Hu & _ & Th & _);
      [|reflexivity].
    destruct r2 as [s|e2]; [discriminate|]. intros [= <- <- <-].
    destruct (Th e2 eq_refl) as (-> & -> & Hc).
    split; [exact K|]. split; [|tauto].
    rewrite !List.filter_app, U1.
    destruct Hi as [-> | (d & _ & ->)], Hr as [-> | ->]; reflexivity.
  - intros [= <- <- <-]. destruct (T e1 eq_refl) as [-> Hc]. auto.
Qed.

(** X15: the client a build returns stands on the shared client, the one
    the module keeps after the call, which is the one it had or the one
    just made: the context, key, version, account index, player and cache
    are the shared ones, and the fetch function is the one given to the
    call, or the shared one when none is given. *)
Theorem clone_stands_on_shared_client (w : @World opaque transport)
    (customFetch : option transport) (st st' : State) (yt : Innertube)
    (evs : list Event) :
  cloneInnertube' w customFetch st = (Return yt, st', evs) ->
  exists it,
    innertube st' = Some it
    /\ (innertube st = Some it \/ Innertube_create w customFetch = Return it)
    /\ context (session yt) = context (session it)
    /\ key (session yt) = key (session it)
    /\ api_version (session yt) = api_version (session it)
    /\ account_index (session yt) = account_index (session it)
    /\ player (session yt) = player (session it)
    /\ cache (session yt) = cache (session it)
    /\ http_fetch (session yt)
       = match customFetch with
         | Some f => f
         | None => http_fetch (session it)
         end.
Proof.
  rewrite cloneInnertube_run.
  destruct (acquire w customFetch st) as [[r1 st1] ev1] eqn:A.
  apply acquire_shape in A as (_ & _ & _ & R).
  destruct r1 as [it|e1]; [|discriminate].
  destruct (R it eq_refl) as [I O].
  destruct (login _ _ w _ st1) as [[r2 st2] ev2] eqn:G.
  pose proof G as G'. apply login_keeps_client in G' as (K & _ & _).
  apply login_shape in G as (_ & _ & _ & _ & _ & _ & _ & _ & _ & Rs); [|reflexivity].
  destruct r2 as [s|e2]; [|discriminate]. intros [= <- <- <-].
  destruct (Rs s eq_refl) as (_ & F1 & F2 & F3 & F4 & F5 & F6 & F7).
  exists it. simpl session. rewrite K, F1, F2, F3, F4, F5, F6, F7.
  repeat split; auto.
Qed.

(** X16: the session a build returns is logged in exactly when the stored
    bundle is one that [transformSessionData] accepts. *)
Theorem logged_in_iff_bundle_accepted (w : @World opaque transport)
    (customFetch : option transport) (st st' : State) (yt : Innertube)
    (evs : list Event) :
  cloneInnertube' w customFetch st = (Return yt, st', evs) ->
  (logged_in (session yt) = true <-> transformSessionData (youtube_oauth st) <> None).
Proof.
  rewrite cloneInnertube_run.
  destruct (acquire w customFetch st) as [[r1 st1] ev1] eqn:A.
  apply acquire_shape in A as (_ & K & _ & _).
  destruct r1 as [it|e1]; [|discriminate].
  destruct (login _ _ w _ st1) as [[r2 st2] ev2] eqn:G.
  apply login_shape in G as (_ & _ & _ & _ & _ & _ & _ & _ & _ & Rs); [|reflexivity].
  destruct r2 as [s|e2]; [|discriminate]. intros [= <- <- <-].
  destruct (Rs s eq_refl) as (L & _). rewrite K in L. exact L.
Qed.

End SessionFurther.

(** ** The default export *)

Section ExportFurther.

Context {opaque transport : Type}.
Variable DateTime : jsval -> option Z.
Variable toISOString : Z -> string.
Variable request_fetch : Request -> transport.
Variable StringToNumber : string -> jsnum.
Variable cleanString : string -> string.
Variable durationLimit : Z.

Local Abbreviation youtube' :=
  (@youtube opaque transport DateTime toISOString request_fetch StringToNumber
            cleanString durationLimit).
Local Abbreviation cloneInnertube' := (@cloneInnertube opaque transport DateTime toISOString).


(** X18: when the session is built, a [getBasicInfo] that throws or gives
    nothing is answered with content.video.private,
    content.video.unavailable or fetch.fail, never critical, and the state
    and the calls are those of the build. *)
Theorem fetch_failures_are_errors (w : @World opaque transport) (o : Request)
    (st st1 : State) (yt : Innertube) (ev1 : list Event) :
  cloneInnertube' w (Some (request_fetch o)) st = (Return yt, st1, ev1) ->
  (forall info,
      getBasicInfo w yt (o_id o) (if logged_in (session yt) then "ANDROID" else "IOS")
      <> Return (Some info)) ->
  exists k,
    youtube' w o st = (Return (RError k false), st1, ev1)
    /\ In k ["content.video.private"; "content.video.unavailable"; "fetch.fail"].
Proof.
  intros C N. unfold youtube. rewrite C.
  destruct (getBasicInfo w yt (o_id o) _) as [[info|]|e2] eqn:G.
  - exfalso. now apply (N info).
  - exists "fetch.fail". split; [reflexivity|simpl; tauto].
  - destruct (str_is (info_reason e2) _);
      [exists "content.video.private"; split; [reflexivity|simpl; tauto]|].
    destruct (str_is (message e2) _);
      [exists "content.video.unavailable"|exists "fetch.fail"];
      (split; [reflexivity|simpl; tauto]).
Qed.

(** X20: a plan of the default export is the plan computed from the info
    that [getBasicInfo] gave for the requested id, asked as ANDROID when the
    session is logged in and as IOS otherwise; that info has status OK, is
    not live, is within the duration limit and has the requested id; the
    state and the calls are those of the build of the session. *)
Theorem export_plan_comes_from_fetched_info (w : @World opaque transport) (o : Request)
    (st st' : State) (r : Response) (evs : list Event) :
  youtube' w o st = (Return r, st', evs) ->
  is_plan r = true ->
  exists yt info,
    cloneInnertube' w (Some (request_fetch o)) st = (Return yt, st', evs)
    /\ getBasicInfo w yt (o_id o) (if logged_in (session yt) then "ANDROID" else "IOS")
       = Return (Some info)
    /\ process StringToNumber cleanString durationLimit o info = Return r
    /\ status (playability_status info) = "OK"
    /\ is_live (basic_info info) = false
    /\ exceeds (duration (basic_info info)) durationLimit = false
    /\ info_id (basic_info info) = Some (o_id o).
Proof.
  unfold youtube. intros H P.
  destruct (cloneInnertube _ _ w _ st) as [[[yt|e] st1] ev1].
  - destruct (getBasicInfo w yt (o_id o) _) as [[info|]|e] eqn:G.
    + injection H as H <- <-. exists yt, info.
      split; [reflexivity|]. split; [exact G|]. split; [exact H|].
      apply process_plan in H as (S & L & D & Hid & _); auto.
    + injection H as <- <- <-. discriminate.
    + destruct (str_is (info_reason e) _); [|destruct (str_is (message e) _)];
        injection H as <- <- <-; discriminate.
  - destruct (message_endsWith e _); [|destruct (message_includes e _)];
      try discriminate; injection H as <- <- <-; discriminate.
Qed.

End ExportFurther.

(** ** The filter by codec *)

Lemma filter_insert_by_bitrate (b : Z) (x : Format) (l : list Format) :
  List.filter (fun e => (bitrate e =? b)%Z) (insert_by_bitrate x l)
  = List.filter (fun e => (bitrate e =? b)%Z) (x :: l).
Proof.
  induction l as [|y l IH]; [reflexivity|].
  cbn [insert_by_bitrate]. destruct (bitrate y <=? bitrate x)%Z eqn:E; [reflexivity|].
  cbn [List.filter] in *. rewrite IH.
  destruct (bitrate x =? b)%Z eqn:X, (bitrate y =? b)%Z eqn:Y; try reflexivity.
  apply Z.eqb_eq in X, Y. apply Z.leb_gt in E. lia.
Qed.

(** X19: [filterByCodec] keeps the variants whose mime type holds the video
    or the audio tag of the family, each as often as it occurs, in
    descending order of bitrate, and variants of one bitrate in the order
    they had. *)
Theorem filterByCodec_sorts_stably (format : Codec) (formats : list Format) :
  Permutation (filterByCodec format formats)
              (List.filter (fun e => JS.includes (mime_type e) (videoCodec (codecList format))
                                     || JS.includes (mime_type e)
                                                    (audioCodec (codecList format)))
                           formats)
  /\ Sorted bitrate_ge (filterByCodec format formats)
  /\ (forall b,
        List.filter (fun e => (bitrate e =? b)%Z) (filterByCodec format formats)
        = List.filter (fun e => (bitrate e =? b)%Z)
                      (List.filter (matches_codec format) formats)).
Proof.
  unfold filterByCodec. split; [apply sort_by_bitrate_perm|].
  split; [apply sort_by_bitrate_sorted|].
  intros b. induction (List.filter (matches_codec format) formats) as [|x l IH];
    [reflexivity|].
  cbn [sort_by_bitrate fold_right]. fold (sort_by_bitrate l).
  rewrite filter_insert_by_bitrate. cbn [List.filter]. now rewrite IH.
Qed.

(** ** The further properties on the samples *)

Lemma process_error_kinds_witness :
  In "fetch.fail"
     [ "youtube.login"; "content.video.age"; "content.video.private"; "fetch.rate";
       "content.video.region"; "content.video.unavailable"; "content.video.live";
       "content.too_long"; "fetch.fail"; "fetch.empty" ].
Proof.
  apply (process_error_kinds decimalNumber (fun s => s) 10800
           (sample_request "xyz" FormatAbsent "720" None false) e2e_info
           "fetch.fail" true).
  reflexivity.
Defined.

Lemma plan_kind_witness : isAudioOnly e2e_request = false.
Proof.
  apply (plan_kind_follows_request decimalNumber (fun s => s) 10800
           e2e_request e2e_info e2e_response).
  vm_compute. reflexivity.
Defined.

Lemma plan_streams_witness :
  exists v a,
    In v (adaptive_formats e2e_info) /\ matches_codec h264 v = true
    /\ has_video v = true /\ has_audio v = false /\ "link2" = url v
    /\ Some "720p" = quality_label v
    /\ Some "1280x720" = Some (resolution_of v)
    /\ In a (adaptive_formats e2e_info) /\ matches_codec h264 a = true
    /\ has_audio a = true /\ has_video a = false /\ "dub" = url a.
Proof.
  apply (plan_streams_are_adaptive decimalNumber (fun s => s) 10800
           e2e_request e2e_info e2e_response).
  vm_compute. reflexivity.
Defined.

Lemma highest_bitrate_witness :
  (bitrate es_dub <= bitrate es_default)%Z.
Proof.
  apply (selected_streams_have_highest_bitrate decimalNumber
           (sample_request "abc" FormatAbsent "720" None true) spanish_only_info)
    with (dubbed := false).
  - reflexivity.
  - right. left. reflexivity.
  - reflexivity.
  - discriminate.
Defined.

Lemma no_fallback_witness :
  process decimalNumber (fun s => s) 10800
          (sample_request "abc" (FormatKey av1) "720" None false) opus_info
  = Return (error_ "fetch.empty").
Proof.
  apply (no_fallback_without_video decimalNumber (fun s => s) 10800
           (sample_request "abc" (FormatKey av1) "720" None false) opus_info opus_audio);
    try reflexivity.
  - right. left. reflexivity.
  - intros x [<- | [<- | [<- | []]]] H; try reflexivity; discriminate H.
Defined.

Lemma unmatched_quality_witness :
  process decimalNumber (fun s => s) 10800
          (sample_request "abc" FormatAbsent "480" None false) e2e_info
  = Return (error_ "fetch.fail").
Proof.
  apply (unmatched_quality_fails decimalNumber (fun s => s) 10800
           (sample_request "abc" FormatAbsent "480" None false) e2e_info
           (video_format "video/mp4; codecs=avc1.640028" "1080p" "link3" 4000000 1920 1080)
           "1080" 480 1080 decimalNumber_reads_decimals);
    try reflexivity.
  - lia.
  - lia.
  - intros i Hi Q. vm_compute in Hi.
    destruct Hi as [<- | [<- | [<- | [<- | [<- | []]]]]]; try discriminate Q;
      right; reflexivity.
Defined.

Lemma plan_attributes_witness :
  {| fm_title := "A title"; artist := "Artist"; album := None;
     copyright := None; date := None |}
  = file_metadata (fun s => s) (basic_info e2e_info).
Proof.
  apply (plan_attributes decimalNumber (fun s => s) 10800
           e2e_request e2e_info e2e_response).
  vm_compute. reflexivity.
Defined.

Lemma normal_form_witness :
  get_prop (delete "expires"
              (<["expiry_date" := VStr "2024-01-01T00:00:00.000Z"]> bundle_with_expires))
           "expiry_date"
  = VStr "2024-01-01T00:00:00.000Z".
Proof.
  apply (transformSessionData_normal_form bundle_with_expires
           (delete "expires"
              (<["expiry_date" := VStr "2024-01-01T00:00:00.000Z"]> bundle_with_expires))).
  reflexivity.
Defined.

Lemma idempotent_witness :
  transformSessionData
    (Some (delete "expires"
             (<["expiry_date" := VStr "2024-01-01T00:00:00.000Z"]> bundle_with_expires)))
  = Some (delete "expires"
            (<["expiry_date" := VStr "2024-01-01T00:00:00.000Z"]> bundle_with_expires)).
Proof.
  apply (transformSessionData_idempotent bundle_with_expires). reflexivity.
Defined.

Lemma session_calls_witness :
  exists c i rf u,
    snd login_run = c ++ i ++ rf ++ u
    /\ (c = [] \/ c = [EvCreate])
    /\ (i = [] \/ exists d, transformSessionData (youtube_oauth login_state) = Some d
                            /\ i = [EvInit d])
    /\ (rf = [] \/ rf = [EvRefresh])
    /\ (u = [] \/ exists v, u = [EvUpdate v])
    /\ (i = [] -> rf = [] /\ u = []).
Proof.
  apply (session_calls_in_order sampleDateTime sampleISOString login_world (Some tt)
           login_state (snd (fst login_run)) (fst (fst login_run)) (snd login_run)).
  reflexivity.
Defined.

Lemma session_exceptions_witness :
  youtube_oauth (snd (fst init_fails_run)) = youtube_oauth login_state
  /\ List.filter is_update (snd init_fails_run) = [].
Proof.
  destruct (session_exceptions sampleDateTime sampleISOString init_fails_world (Some tt)
              login_state (snd (fst init_fails_run)) invalid_tokens (snd init_fails_run)
              eq_refl) as (A & B & _).
  split; [exact A|exact B].
Defined.

Lemma clone_witness :
  exists it,
    innertube (snd (fst login_run)) = Some it
    /\ (innertube login_state = Some it
        \/ Innertube_create login_world (Some tt) = Return it)
    /\ context (session login_client) = context (session it)
    /\ key (session login_client) = key (session it)
    /\ api_version (session login_client) = api_version (session it)
    /\ account_index (session login_client) = account_index (session it)
    /\ player (session login_client) = player (session it)
    /\ cache (session login_client) = cache (session it)
    /\ http_fetch (session login_client) = tt.
Proof.
  apply (clone_stands_on_shared_client sampleDateTime sampleISOString login_world (Some tt)
           login_state (snd (fst login_run)) login_client (snd login_run)).
  reflexivity.
Defined.

Lemma logged_in_witness :
  logged_in (session login_client) = true
  <-> transformSessionData (youtube_oauth login_state) <> None.
Proof.
  apply (logged_in_iff_bundle_accepted sampleDateTime sampleISOString login_world (Some tt)
           login_state (snd (fst login_run)) login_client (snd login_run)).
  reflexivity.
Defined.

Lemma quality_label_read_witness :
  hasAudio [muxed_format] = Some muxed_format
  /\ fst (select_audio None [muxed_format]) = None
  /\ (exists bv, bestVideo [muxed_format] = Some bv)
  /\ select_streams decimalNumber (fun s => s)
       (sample_request "abc" (FormatKey h264) "360" None true) muxed_info
     = Return (error_ "fetch.fail").
Proof.
  split; [reflexivity|]. split; [reflexivity|]. split; [|reflexivity].
  destruct (quality_label_read_is_safe decimalNumber (fun s => s)
              (sample_request "abc" (FormatKey h264) "360" None true) muxed_info)
    as [Safe _].
  apply (Safe [muxed_format]).
  - intros [[B _] | [H _]]; [discriminate B|discriminate H].
  - reflexivity.
Defined.


Lemma fetch_failures_witness :
  exists k,
    sample_youtube (fetch_world (Throw video_unavailable)) e2e_request
    = (Return (RError k false),
       sample_state (Some sample_client) (Some 1700000000350) None, [EvCreate])
    /\ In k ["content.video.private"; "content.video.unavailable"; "fetch.fail"].
Proof.
  apply (fetch_failures_are_errors sampleDateTime sampleISOString (fun _ => tt)
           decimalNumber (fun s => s) 10800 (fetch_world (Throw video_unavailable))
           e2e_request (sample_state None None None)
           (sample_state (Some sample_client) (Some 1700000000350) None)
           sample_client [EvCreate] eq_refl).
  intros info. discriminate.
Defined.

Lemma export_plan_witness :
  exists yt info,
    cloneInnertube sampleDateTime sampleISOString (fetch_world (Return (Some e2e_info)))
                   (Some tt) (sample_state None None None)
    = (Return yt, sample_state (Some sample_client) (Some 1700000000350) None, [EvCreate])
    /\ getBasicInfo (fetch_world (Return (Some e2e_info))) yt "abc"
                    (if logged_in (session yt) then "ANDROID" else "IOS")
       = Return (Some info)
    /\ process decimalNumber (fun s => s) 10800 e2e_request info = Return e2e_response
    /\ status (playability_status info) = "OK"
    /\ is_live (basic_info info) = false
    /\ exceeds (duration (basic_info info)) 10800 = false
    /\ info_id (basic_info info) = Some "abc".
Proof.
  apply (export_plan_comes_from_fetched_info sampleDateTime sampleISOString (fun _ => tt)
           decimalNumber (fun s => s) 10800 (fetch_world (Return (Some e2e_info)))
           e2e_request (sample_state None None None)
           (sample_state (Some sample_client) (Some 1700000000350) None)
           e2e_response [EvCreate]).
  - vm_compute. reflexivity.
  - reflexivity.
Defined.
